(** * The cache framework of core/cache.py

    A shallow embedding of the caching module: the backend base class
    [_Cache], the single-process in-memory backend [_SimpleCache], the
    memcached adapter and the descriptor parser [get_cache], followed by
    the properties of the module that its specification states. *)

From stdpp Require Import gmap strings list fin_maps.
From Stdlib Require Import ZArith Ascii Lia.

Local Open Scope Z_scope.

(** ** Python values, exceptions and results *)

(** The objects that flow through the module: [None], integers and
    (byte) strings.  Cached values are opaque to the cache apart from the
    test [is not None]; parameter values coming from a descriptor are
    always strings, the defaults are integers. *)
Inductive pyval : Type :=
  | PyNone
  | PyInt (n : Z)
  | PyStr (s : string).

#[global] Instance pyval_eq_dec : EqDecision pyval.
Proof. solve_decision. Defined.

(** [v is not None] *)
Definition is_not_None (v : pyval) : bool :=
  match v with PyNone => false | _ => true end.

(** The two messages [get_cache] raises [InvalidCacheBackendError] with:
    the fixed text "Backend URI must start with scheme://" and
    "%r is not a valid cache backend" % scheme, kept as its argument. *)
Inductive backend_error : Type :=
  | MustStartWithScheme
  | NotAValidBackend (scheme : string).

Inductive exn : Type :=
  | KeyError (key : string)
  | ValueError
  | TypeError
  | OverflowError
  | InvalidCacheBackendError (msg : backend_error).

Inductive result (A : Type) : Type :=
  | Ok (a : A)
  | Raise (e : exn).
Arguments Ok {A} a.
Arguments Raise {A} e.

Definition rbind {A B} (m : result A) (f : A -> result B) : result B :=
  match m with
  | Ok a => f a
  | Raise e => Raise e
  end.

Notation "x <- m ;; k" := (rbind m (fun x => k))
  (at level 100, m at next level, right associativity, only parsing).

(** [try: m except (ValueError, TypeError): h] *)
Definition try_except_ValueError_TypeError {A} (m : result A) (h : result A)
  : result A :=
  match m with
  | Raise ValueError | Raise TypeError => h
  | other => other
  end.

(** ** Built-ins used by the module *)

Module Py.

(** *** Strings *)

(** [s.find(c)] for a one-character [c]: the index of its first
    occurrence, or -1. *)
Fixpoint find (s : string) (c : ascii) : Z :=
  match s with
  | EmptyString => -1
  | String a s' =>
      if Ascii.eqb a c then 0
      else let r := find s' c in if r =? -1 then -1 else 1 + r
  end.

(** [s[n:]] and [s[:n]] for an index [n >= 0]. *)
Fixpoint slice_from (s : string) (n : nat) {struct n} : string :=
  match n, s with
  | O, _ => s
  | S n', String _ s' => slice_from s' n'
  | S _, EmptyString => EmptyString
  end.

Fixpoint slice_to (s : string) (n : nat) {struct n} : string :=
  match n, s with
  | O, _ => EmptyString
  | S n', String a s' => String a (slice_to s' n')
  | S _, EmptyString => EmptyString
  end.

(** [s.split(c, 1)]: one piece when [c] does not occur, otherwise the
    text before its first occurrence and the text after it. *)
Definition split1 (s : string) (c : ascii) : list string :=
  let i := find s c in
  if i =? -1 then [s]
  else [slice_to s (Z.to_nat i); slice_from s (Z.to_nat (i + 1))].

(** [s.split(c)] *)
Fixpoint split_go (cur : string) (s : string) (c : ascii) : list string :=
  match s with
  | EmptyString => [String.rev cur]
  | String a s' =>
      if Ascii.eqb a c then String.rev cur :: split_go EmptyString s' c
      else split_go (String a cur) s' c
  end.
Definition split (s : string) (c : ascii) : list string :=
  split_go EmptyString s c.

(** [s.startswith(p)] *)
Fixpoint startswith (s p : string) {struct p} : bool :=
  match p, s with
  | EmptyString, _ => true
  | String a p', String b s' => Ascii.eqb a b && startswith s' p'
  | String _ _, EmptyString => false
  end.

(** [s.endswith(c)] for a one-character [c]. *)
Fixpoint endswith (s : string) (c : ascii) : bool :=
  match s with
  | EmptyString => false
  | String a EmptyString => Ascii.eqb a c
  | String _ s' => endswith s' c
  end.

(** [s[:-1]] *)
Fixpoint drop_last (s : string) : string :=
  match s with
  | EmptyString => EmptyString
  | String _ EmptyString => EmptyString
  | String a s' => String a (drop_last s')
  end.

(** [s.replace(a, b)] for one-character [a] and [b]. *)
Fixpoint replace (s : string) (a b : ascii) : string :=
  match s with
  | EmptyString => EmptyString
  | String x s' => String (if Ascii.eqb x a then b else x) (replace s' a b)
  end.

(** *** int() *)

Definition digit (c : ascii) : option Z :=
  let n := Z.of_nat (nat_of_ascii c) in
  if (48 <=? n) && (n <=? 57) then Some (n - 48) else None.

Fixpoint digits (acc : Z) (s : string) : option Z :=
  match s with
  | EmptyString => Some acc
  | String c s' =>
      match digit c with
      | Some d => digits (10 * acc + d) s'
      | None => None
      end
  end.

(** The characters [str.strip()] removes: space, \t, \n, \v, \f, \r. *)
Definition is_space (c : ascii) : bool :=
  let n := Z.of_nat (nat_of_ascii c) in
  (n =? 32) || ((9 <=? n) && (n <=? 13)).

Fixpoint lstrip (s : string) : string :=
  match s with
  | String c s' => if is_space c then lstrip s' else s
  | EmptyString => EmptyString
  end.

Definition strip (s : string) : string :=
  String.rev (lstrip (String.rev (lstrip s))).

(** A decimal literal: at least one digit. *)
Definition unsigned_literal (s : string) : result Z :=
  match s with
  | EmptyString => Raise ValueError
  | _ => match digits 0 s with
         | Some n => Ok n
         | None => Raise ValueError
         end
  end.

(** [int(s)] for a string: surrounding whitespace, an optional sign,
    decimal digits; anything else is a [ValueError]. *)
Definition int_of_string (s : string) : result Z :=
  match strip s with
  | String c t =>
      if Ascii.eqb c "-"%char then n <- unsigned_literal t ;; Ok (- n)
      else if Ascii.eqb c "+"%char then unsigned_literal t
      else unsigned_literal (String c t)
  | EmptyString => Raise ValueError
  end.

(** [int(v)]: an integer is returned as it is, a string is parsed,
    [int(None)] is a [TypeError]. *)
Definition int (v : pyval) : result Z :=
  match v with
  | PyInt n => Ok n
  | PyStr s => int_of_string s
  | PyNone => Raise TypeError
  end.

(** *** Floats

    [time.time()] returns a double, and [set] adds an integer to it.  The
    doubles that occur here are whole numbers: a clock reading is taken
    in whole seconds.  Such a double is kept as the integer it denotes,
    and [inf] and [-inf] as [2^1024] and [-2^1024], the next powers of two
    beyond the largest double, 2^1024 - 2^971, so that the order of the
    integers is the order of the doubles. *)

Definition float_inf : Z := 2 ^ 1024.

(** Rounding to nearest overflows from the midpoint between the largest
    double and 2^1024 on. *)
Definition float_overflows (z : Z) : bool :=
  2 ^ 1024 - 2 ^ 970 <=? Z.abs z.

(** The nearest integer with a significand of 53 bits, and of two
    nearest ones the one with the even significand. *)
Definition float_round_pos (a : Z) : Z :=
  if a <? 2 ^ 53 then a
  else
    let ulp := 2 ^ (Z.log2 a - 52) in
    let q := a / ulp in
    let r := a mod ulp in
    if 2 * r <? ulp then q * ulp
    else if ulp <? 2 * r then (q + 1) * ulp
    else if Z.even q then q * ulp
    else (q + 1) * ulp.

Definition float_round (z : Z) : Z :=
  if 0 <=? z then float_round_pos z else - float_round_pos (- z).

(** The conversion of an integer operand to a double: an integer of too
    large a magnitude is an [OverflowError] ("int too large to convert to
    float"). *)
Definition float_of_int (n : Z) : result Z :=
  if float_overflows n then Raise OverflowError else Ok (float_round n).

(** [x + y] for finite doubles: the exact sum, rounded; a sum that
    overflows is an infinity, not an exception. *)
Definition float_add (x y : Z) : Z :=
  let s := x + y in
  if float_overflows s then (if 0 <? s then float_inf else - float_inf)
  else float_round s.

(** [x + n] for a double [x] and an integer [n]. *)
Definition float_add_int (x n : Z) : result Z :=
  y <- float_of_int n ;; Ok (float_add x y).

(** The integers that are finite doubles. *)
Definition is_float (x : Z) : Prop :=
  float_round x = x /\ float_overflows x = false.

End Py.

(** ** The query-string parser *)

Module cgi.

Definition hex_digit (c : ascii) : option Z :=
  let n := Z.of_nat (nat_of_ascii c) in
  if (48 <=? n) && (n <=? 57) then Some (n - 48)
  else if (65 <=? n) && (n <=? 70) then Some (n - 55)
  else if (97 <=? n) && (n <=? 102) then Some (n - 87)
  else None.

(** Percent-decoding: "%XX" with two hexadecimal digits stands for the
    byte XX; a "%" not followed by two such digits stays as it is. *)
Fixpoint unquote (s : string) : string :=
  match s with
  | EmptyString => EmptyString
  | String c t =>
      if Ascii.eqb c "%"%char then
        match t with
        | String h (String l t') =>
            match hex_digit h, hex_digit l with
            | Some a, Some b =>
                String (ascii_of_nat (Z.to_nat (16 * a + b))) (unquote t')
            | _, _ => String c (unquote t)
            end
        | _ => String c (unquote t)
        end
      else String c (unquote t)
  end.

Definition decode (s : string) : string :=
  unquote (Py.replace s "+"%char " "%char).

(** Modelled from the spec: [parse_qsl] is imported from the interpreter's
    [cgi] library and is not part of the repository.  The query string is
    split at
    every ampersand, each field at its first "=", and names and values
    are percent-decoded; with the library's default flags a field without
    "=" and a field with an empty value are skipped.  The pairs come out
    in the order of the fields. *)
Definition parse_qsl (qs : string) : list (string * string) :=
  omap (fun name_value =>
          match Py.split1 name_value "="%char with
          | [name; value] =>
              if String.eqb value "" then None
              else Some (decode name, decode value)
          | _ => None
          end)
       (Py.split qs "&"%char).

End cgi.

(** [dict(pairs)]: the pairs are inserted from left to right, so of two
    pairs with the same key the last one stays. *)
Definition dict_of_pairs (pairs : list (string * string))
  : gmap string pyval :=
  foldl (fun d kv => <[kv.1 := PyStr kv.2]> d) ∅ pairs.

(** ** Dictionaries *)

(** [_cache] is enumerated by [_cull], so the order in which it iterates
    is part of its state: it is kept as the list of its items in iteration
    order, one item per key.  A key that is assigned again keeps its place
    and a new key goes to the end, as in interpreters that keep insertion
    order; the theorems about [_cull] speak of the order as it stands when
    the pass runs, whatever it is.  The other dictionaries of the module
    are only read, written and deleted by key and are finite maps. *)
Module ODict.
Abbreviation t V := (list (string * V)) (only parsing).

Section ODict.
Context {V : Type}.
Implicit Types d : t V.

(** iteration: [for k in d] *)
Definition keys d : list string := d.*1.

Fixpoint lookup d (k : string) : option V :=
  match d with
  | [] => None
  | (k', v) :: d' => if decide (k' = k) then Some v else lookup d' k
  end.

(** [d.get(k, dflt)] *)
Definition get d (k : string) (dflt : V) : V :=
  default dflt (lookup d k).

(** [d.has_key(k)] *)
Definition has_key d (k : string) : bool :=
  match lookup d k with Some _ => true | None => false end.

(** [d[k] = v] *)
Fixpoint setitem d (k : string) (v : V) : t V :=
  match d with
  | [] => [(k, v)]
  | (k', v') :: d' =>
      if decide (k' = k) then (k, v) :: d' else (k', v') :: setitem d' k v
  end.

Definition remove d (k : string) : t V :=
  filter (fun kv => kv.1 ≠ k) d.

(** [del d[k]] *)
Definition delitem d (k : string) : result (t V) :=
  if has_key d k then Ok (remove d k) else Raise (KeyError k).

(** A dictionary holds one item per key. *)
Definition wf d : Prop := NoDup (keys d).
End ODict.
End ODict.

(** [del d[k]] on a finite map *)
Definition delitem {V} (d : gmap string V) (k : string)
  : result (gmap string V) :=
  match d !! k with
  | Some _ => Ok (delete k d)
  | None => Raise (KeyError k)
  end.

(** [try: m except KeyError: pass], where [m] updates [s]. *)
Definition try_except_KeyError_pass {S} (s : S) (m : result S) : result S :=
  match m with
  | Raise (KeyError _) => Ok s
  | other => other
  end.

(** [enumerate(l)] *)
Definition enumerate {A} (l : list A) : list (nat * A) :=
  imap (fun i x => (i, x)) l.

(** [for x in l: s = f(s, x)], stopping at the first exception. *)
Fixpoint for_each {S A} (f : S -> A -> result S) (l : list A) (s : S)
  : result S :=
  match l with
  | [] => Ok s
  | x :: l' => s' <- f s x ;; for_each f l' s'
  end.

(** ** Abstract base implementation *)

Module _Cache.

(** [_Cache.__init__(self, params)]: the value of [self.default_timeout]. *)
Definition __init__ (params : gmap string pyval) : result Z :=
  let timeout := default (PyInt 300) (params !! "timeout") in
  timeout <- try_except_ValueError_TypeError (Py.int timeout) (Ok 300) ;;
  Ok timeout.

(** The methods the base class implements on top of [self.get].  A
    backend is a state of type [S]; [get self now key dflt] is its [get]
    run when the clock reads [now], giving the returned object and the
    state it leaves. *)
Section Methods.
Context {S : Type}.
Variable get : S -> Z -> string -> pyval -> result (pyval * S).

(** [get_many]: [clock i] is what [time.time()] reads during the read
    of the [i]-th requested key. *)
Fixpoint get_many_loop (clock : nat -> Z) (i : nat) (keys : list string)
    (d : gmap string pyval) (self : S)
  : result (gmap string pyval * S) :=
  match keys with
  | [] => Ok (d, self)
  | k :: keys' =>
      r <- get self (clock i) k PyNone ;;
      let '(val, self') := r in
      let d' := if is_not_None val then <[k := val]> d else d in
      get_many_loop clock (Datatypes.S i) keys' d' self'
  end.

Definition get_many (self : S) (clock : nat -> Z) (keys : list string)
  : result (gmap string pyval * S) :=
  get_many_loop clock 0%nat keys ∅ self.

Definition has_key (self : S) (now : Z) (key : string)
  : result (bool * S) :=
  r <- get self now key PyNone ;;
  let '(val, self') := r in
  Ok (is_not_None val, self').
End Methods.

End _Cache.

(** ** memcached cache backend *)

Module _MemcachedCache.

(** [Client] is the type of the objects [memcache.Client] builds.  The
    methods of this backend hand their arguments to that object and are
    not modelled; its constructor is, for [get_cache]. *)
Record t (Client : Type) : Type := Build {
  default_timeout : Z;
  _cache : Client
}.
Arguments Build {Client}.

Definition __init__ {Client} (memcache_Client : list string -> Client)
    (server : string) (params : gmap string pyval) : result (t Client) :=
  default_timeout <- _Cache.__init__ params ;;
  Ok (Build default_timeout (memcache_Client [server])).

End _MemcachedCache.

(** ** Single-process in-memory cache *)

Module _SimpleCache.

Record t : Type := Build {
  default_timeout : Z;
  _cache : ODict.t pyval;
  _expire_info : gmap string Z;
  _max_entries : Z;
  _cull_frequency : Z
}.

Definition with_cache (self : t) (c : ODict.t pyval) : t :=
  Build (default_timeout self) c (_expire_info self)
        (_max_entries self) (_cull_frequency self).

Definition with_expire_info (self : t) (e : gmap string Z) : t :=
  Build (default_timeout self) (_cache self) e
        (_max_entries self) (_cull_frequency self).

Definition __init__ (host : string) (params : gmap string pyval)
  : result t :=
  default_timeout <- _Cache.__init__ params ;;
  let max_entries := default (PyInt 300) (params !! "max_entries") in
  _max_entries <-
    try_except_ValueError_TypeError (Py.int max_entries) (Ok 300) ;;
  let cull_frequency := default (PyInt 3) (params !! "cull_frequency") in
  _cull_frequency <-
    try_except_ValueError_TypeError (Py.int cull_frequency) (Ok 3) ;;
  Ok (Build default_timeout [] ∅ _max_entries _cull_frequency).

(** [get]; [now] is the reading of [time.time()].  Clock readings and
    expiration times are doubles, kept as the integers of the [Py] float
    operations.  Every expiration time in [_expire_info] is a number, so
    [exp is not None] holds. *)
Definition get (self : t) (now : Z) (key : string) (dflt : pyval)
  : result (pyval * t) :=
  let exp := default now (_expire_info self !! key) in
  if exp <? now then
    c <- ODict.delitem (_cache self) key ;;
    let self := with_cache self c in
    e <- delitem (_expire_info self) key ;;
    let self := with_expire_info self e in
    Ok (dflt, self)
  else
    Ok (ODict.get (_cache self) key dflt, self).

Definition delete (self : t) (key : string) : result t :=
  self <- try_except_KeyError_pass self
            (c <- ODict.delitem (_cache self) key ;; Ok (with_cache self c)) ;;
  try_except_KeyError_pass self
    (e <- delitem (_expire_info self) key ;; Ok (with_expire_info self e)).

Definition has_key (self : t) (key : string) : bool :=
  ODict.has_key (_cache self) key.

Definition doomed (self : t) : list string :=
  (filter (fun ik => Z.of_nat ik.1 mod _cull_frequency self = 0)
          (enumerate (ODict.keys (_cache self)))).*2.

Definition _cull (self : t) : result t :=
  if _cull_frequency self =? 0 then
    let self := with_cache self [] in
    Ok (with_expire_info self ∅)
  else
    for_each delete (doomed self) self.

(** [set]; [timeout] is [None] when the argument is left out and an
    integer otherwise, as the default timeout is, and [now] is the
    reading of [time.time()].  The method assigns to the maps of
    [self] one after the other, and the sum [time.time() + timeout] is
    computed between the two assignments: when it raises, the first
    assignment has been made and the second has not.  [set_in_place]
    gives the object as the call leaves it, together with the way the
    call ends.  (The cull pass does not raise, see [_cull_eq].) *)
Definition set_in_place (self : t) (now : Z) (key : string) (value : pyval)
    (timeout : option Z) : t * result unit :=
  match (if Z.of_nat (length (_cache self)) >=? _max_entries self
         then _cull self else Ok self) with
  | Raise e => (self, Raise e)
  | Ok self =>
      let timeout :=
        match timeout with None => default_timeout self | Some t => t end in
      let self := with_cache self (ODict.setitem (_cache self) key value) in
      match Py.float_add_int now timeout with
      | Raise e => (self, Raise e)
      | Ok exp =>
          (with_expire_info self (<[key := exp]> (_expire_info self)), Ok tt)
      end
  end.

(** [set] as a step of a computation that goes on only when the call
    returns. *)
Definition set (self : t) (now : Z) (key : string) (value : pyval)
    (timeout : option Z) : result t :=
  match set_in_place self now key value timeout with
  | (self, Ok _) => Ok self
  | (_, Raise e) => Raise e
  end.

(** Inherited from [_Cache]. *)
Definition get_many := _Cache.get_many get.

End _SimpleCache.

(** ** Read settings and load a cache backend *)

Section Backends.
Context {Client : Type}.

(** The [memcache] module: [None] when [import memcache] failed,
    otherwise its [Client] constructor. *)
Variable memcache : option (list string -> Client).

Inductive cache : Type :=
  | MemcachedCache (c : _MemcachedCache.t Client)
  | SimpleCache (c : _SimpleCache.t).

Definition constructor (B : Type) : Type :=
  string -> gmap string pyval -> result B.

(** The name [_MemcachedCache] at module level: [None] after a failed
    import, else the class. *)
Definition _MemcachedCache : option (constructor cache) :=
  match memcache with
  | None => None
  | Some memcache_Client =>
      Some (fun server params =>
              c <- _MemcachedCache.__init__ memcache_Client server params ;;
              Ok (MemcachedCache c))
  end.

Definition _SimpleCache : option (constructor cache) :=
  Some (fun host params =>
          c <- _SimpleCache.__init__ host params ;; Ok (SimpleCache c)).

Definition _BACKENDS : gmap string (option (constructor cache)) :=
  {[ "memcached" := _MemcachedCache; "simple" := _SimpleCache ]}.
End Backends.

(** [get_cache] over the registry [BACKENDS]; an entry that is [None] is
    not callable. *)
Definition get_cache_in {B} (BACKENDS : gmap string (option (constructor B)))
    (backend_uri : string) : result B :=
  if Py.find backend_uri ":"%char =? -1 then
    Raise (InvalidCacheBackendError MustStartWithScheme)
  else
    match Py.split1 backend_uri ":"%char with
    | [scheme; rest] =>
        if negb (Py.startswith rest "//") then
          Raise (InvalidCacheBackendError MustStartWithScheme)
        else if negb (bool_decide (is_Some (BACKENDS !! scheme))) then
          Raise (InvalidCacheBackendError (NotAValidBackend scheme))
        else
          let host := Py.slice_from rest 2 in
          let qpos := Py.find rest "?"%char in
          let '(params, host) :=
            if negb (qpos =? -1) then
              (dict_of_pairs
                 (cgi.parse_qsl (Py.slice_from rest (Z.to_nat (qpos + 1)))),
               Py.slice_to rest (Z.to_nat qpos))
            else (∅, host) in
          let host := if Py.endswith host "/"%char
                      then Py.drop_last host else host in
          match BACKENDS !! scheme with
          | Some (Some class) => class host params
          | Some None => Raise TypeError
          | None => Raise (KeyError scheme)
          end
    | _ => Raise ValueError
    end.

Definition get_cache {Client} (memcache : option (list string -> Client))
    (backend_uri : string) : result (cache (Client := Client)) :=
  get_cache_in (_BACKENDS memcache) backend_uri.

(** * Properties *)

(** ** Ordered dictionaries *)

Section ODictFacts.
Context {V : Type}.
Implicit Types (d : ODict.t V) (k : string) (v : V).

Lemma lookup_setitem_eq d k v :
  ODict.lookup (ODict.setitem d k v) k = Some v.
Proof.
  induction d as [|[k' v'] d IH]; simpl.
  - by rewrite decide_True.
  - destruct (decide (k' = k)) as [->|Hne]; simpl.
    + by rewrite decide_True.
    + by rewrite decide_False.
Qed.

Lemma lookup_setitem_ne d k k' v :
  k ≠ k' -> ODict.lookup (ODict.setitem d k v) k' = ODict.lookup d k'.
Proof.
  intros Hne. induction d as [|[k0 v0] d IH]; simpl.
  - by rewrite decide_False.
  - destruct (decide (k0 = k)) as [->|Hk0]; simpl.
    + by rewrite !decide_False.
    + by rewrite IH.
Qed.

Lemma length_setitem d k v :
  (length (ODict.setitem d k v) <= S (length d))%nat.
Proof.
  induction d as [|[k' v'] d IH]; simpl; [lia|].
  destruct (decide (k' = k)); simpl; lia.
Qed.

Lemma length_setitem_new d k v :
  ODict.lookup d k = None -> length (ODict.setitem d k v) = S (length d).
Proof.
  induction d as [|[k' v'] d IH]; simpl; [done|].
  destruct (decide (k' = k)); [done|]. intros H. simpl. by rewrite IH.
Qed.

Lemma lookup_remove_eq d k : ODict.lookup (ODict.remove d k) k = None.
Proof.
  unfold ODict.remove. induction d as [|[k' v'] d IH]; [done|].
  rewrite filter_cons. simpl. destruct (decide (k' ≠ k)); simpl.
  - by rewrite decide_False.
  - done.
Qed.

Lemma lookup_remove_ne d k k' :
  k ≠ k' -> ODict.lookup (ODict.remove d k) k' = ODict.lookup d k'.
Proof.
  intros Hne. unfold ODict.remove.
  induction d as [|[k0 v0] d IH]; [done|].
  rewrite filter_cons. simpl. destruct (decide (k0 ≠ k)) as [H0|H0]; simpl.
  - by rewrite IH.
  - apply dec_stable in H0. subst k0. by rewrite decide_False.
Qed.

Lemma lookup_is_Some d k : is_Some (ODict.lookup d k) <-> k ∈ ODict.keys d.
Proof.
  unfold ODict.keys. induction d as [|[k' v'] d IH]; simpl.
  - split; [by intros [? ?]|by intros ?%elem_of_nil].
  - rewrite elem_of_cons. destruct (decide (k' = k)) as [->|Hne].
    + split; eauto.
    + rewrite IH. split; [by right|]. by intros [?|?].
Qed.

Lemma lookup_None d k : ODict.lookup d k = None <-> k ∉ ODict.keys d.
Proof. rewrite <- lookup_is_Some, eq_None_not_Some. done. Qed.

Lemma remove_absent d k : ODict.lookup d k = None -> ODict.remove d k = d.
Proof.
  unfold ODict.remove. induction d as [|[k' v'] d IH]; [done|].
  rewrite filter_cons. simpl.
  destruct (decide (k' = k)) as [->|Hne]; [done|]. intros H.
  rewrite decide_True by done. by rewrite IH.
Qed.

(** The item at a position of a well-formed dictionary is the one its
    key looks up. *)
Lemma lookup_at_position d (i : nat) k v :
  ODict.wf d -> d !! i = Some (k, v) -> ODict.lookup d k = Some v.
Proof.
  unfold ODict.wf, ODict.keys. revert i.
  induction d as [|[k' v'] d IH]; intros i Hwf Hi; [done|].
  simpl in *. apply NoDup_cons in Hwf as [Hk' Hwf].
  destruct i as [|i]; simpl in Hi.
  - injection Hi as -> ->. by rewrite decide_True.
  - rewrite decide_False; [by eapply IH|].
    intros ->. apply Hk'. apply list_elem_of_fmap.
    exists (k, v). split; [done|]. by eapply list_elem_of_lookup_2.
Qed.

Lemma wf_setitem d k v : ODict.wf d -> ODict.wf (ODict.setitem d k v).
Proof.
  unfold ODict.wf. induction d as [|[k' v'] d IH]; simpl.
  - intros _. apply NoDup_singleton.
  - intros [Hk' Hwf]%NoDup_cons.
    destruct (decide (k' = k)) as [->|Hne]; simpl.
    + by apply NoDup_cons.
    + apply NoDup_cons. split; [|by apply IH].
      fold (ODict.keys (ODict.setitem d k v)).
      rewrite <- lookup_is_Some, lookup_setitem_ne by done.
      by rewrite lookup_is_Some.
Qed.

Lemma wf_filter (P : string * V -> Prop) `{!forall x, Decision (P x)} d :
  ODict.wf d -> ODict.wf (filter P d).
Proof.
  unfold ODict.wf, ODict.keys. intros Hwf.
  eapply sublist_NoDup; [exact Hwf|].
  apply fmap_sublist, sublist_filter.
Qed.
End ODictFacts.

(** ** The in-memory backend: what its methods compute *)

(** The backend [self] with the keys of [ks] taken out of both maps. *)
Definition without (self : _SimpleCache.t) (ks : list string)
  : _SimpleCache.t :=
  _SimpleCache.Build
    (_SimpleCache.default_timeout self)
    (filter (fun kv => kv.1 ∉ ks) (_SimpleCache._cache self))
    (filter (fun kv => kv.1 ∉ ks) (_SimpleCache._expire_info self))
    (_SimpleCache._max_entries self)
    (_SimpleCache._cull_frequency self).

(** The backend [self] with both maps emptied. *)
Definition flushed (self : _SimpleCache.t) : _SimpleCache.t :=
  _SimpleCache.Build (_SimpleCache.default_timeout self) [] ∅
    (_SimpleCache._max_entries self) (_SimpleCache._cull_frequency self).

(** The backend [self] after the two assignments that end [set]. *)
Definition stored (self : _SimpleCache.t) (key : string) (value : pyval)
    (exp : Z) : _SimpleCache.t :=
  _SimpleCache.Build
    (_SimpleCache.default_timeout self)
    (ODict.setitem (_SimpleCache._cache self) key value)
    (<[key := exp]> (_SimpleCache._expire_info self))
    (_SimpleCache._max_entries self)
    (_SimpleCache._cull_frequency self).

Lemma remove_as_filter {V} (d : ODict.t V) k :
  ODict.remove d k = filter (fun kv => kv.1 ∉ [k]) d.
Proof.
  unfold ODict.remove. apply list_filter_iff. intros [k' v]. simpl.
  rewrite list_elem_of_singleton. done.
Qed.

Lemma delete_as_filter {V} (m : gmap string V) k :
  delete k m = filter (fun kv => kv.1 ∉ [k]) m.
Proof.
  apply map_eq. intros i. rewrite map_lookup_filter.
  destruct (decide (k = i)) as [->|Hne].
  - rewrite lookup_delete_eq. destruct (m !! i); simpl; [|done].
    rewrite option_guard_False; [done|]. simpl.
    intros H. apply H, list_elem_of_singleton. done.
  - rewrite lookup_delete_ne by done. destruct (m !! i); simpl; [|done].
    rewrite option_guard_True; [done|]. simpl.
    rewrite list_elem_of_singleton. congruence.
Qed.

(** [delete] never raises: it takes the key out of both maps. *)
Lemma delete_eq self key :
  _SimpleCache.delete self key = Ok (without self [key]).
Proof.
  unfold _SimpleCache.delete, ODict.delitem, ODict.has_key, delitem, without.
  rewrite <- remove_as_filter, <- delete_as_filter.
  destruct self as [dt c e me cf]. simpl.
  destruct (ODict.lookup c key) eqn:Hc; simpl;
    (destruct (e !! key) eqn:He; simpl;
     [|rewrite (delete_id e key) by done];
     rewrite ?(remove_absent c key) by done; reflexivity).
Qed.

Lemma without_without self ks1 ks2 :
  without (without self ks1) ks2 = without self (ks1 ++ ks2).
Proof.
  unfold without. simpl. f_equal.
  - rewrite list_filter_filter. apply list_filter_iff. intros [k v]. simpl.
    rewrite elem_of_app. tauto.
  - rewrite map_filter_filter. apply map_filter_ext. intros k v _. simpl.
    rewrite elem_of_app. tauto.
Qed.

Lemma for_each_delete ks self :
  for_each _SimpleCache.delete ks self = Ok (without self ks).
Proof.
  revert self. induction ks as [|k ks IH]; intros self; simpl.
  - f_equal. unfold without. destruct self as [dt c e me cf]. simpl. f_equal.
    + induction c as [|kv c IHc]; [done|].
      rewrite filter_cons_True; [by rewrite <- IHc|]. apply not_elem_of_nil.
    + symmetry. apply map_filter_id. intros ? ? _. apply not_elem_of_nil.
  - rewrite delete_eq. simpl. rewrite IH. by rewrite without_without.
Qed.

(** The cull pass never raises. *)
Lemma _cull_eq self :
  _SimpleCache._cull self =
  Ok (if _SimpleCache._cull_frequency self =? 0 then flushed self
      else without self (_SimpleCache.doomed self)).
Proof.
  unfold _SimpleCache._cull.
  destruct (_SimpleCache._cull_frequency self =? 0); [done|].
  apply for_each_delete.
Qed.

(** *** Float arithmetic *)

Lemma binade a :
  2 ^ 53 <= a ->
  0 < 2 ^ (Z.log2 a - 52) /\
  2 ^ 52 * 2 ^ (Z.log2 a - 52) <= a < 2 ^ 53 * 2 ^ (Z.log2 a - 52).
Proof.
  intros Ha.
  assert (H53 : 53 <= Z.log2 a).
  { rewrite <- (Z.log2_pow2 53) by lia. apply Z.log2_le_mono. exact Ha. }
  assert (Hpos : 0 < a) by (pose proof (Z.pow_pos_nonneg 2 53); lia).
  pose proof (Z.log2_spec a Hpos) as [Hlo Hhi].
  split; [apply Z.pow_pos_nonneg; lia|].
  rewrite <- !Z.pow_add_r by lia.
  replace (52 + (Z.log2 a - 52)) with (Z.log2 a) by lia.
  replace (53 + (Z.log2 a - 52)) with (Z.succ (Z.log2 a)) by lia.
  done.
Qed.

(** Rounding stays within the binade, ends included. *)
Lemma float_round_pos_binade a :
  2 ^ 53 <= a ->
  2 ^ 52 * 2 ^ (Z.log2 a - 52) <= Py.float_round_pos a
    <= 2 ^ 53 * 2 ^ (Z.log2 a - 52).
Proof.
  intros Ha. destruct (binade a Ha) as (Hg & Hlo & Hhi).
  unfold Py.float_round_pos.
  destruct (Z.ltb_spec a (2 ^ 53)) as [?|_]; [lia|].
  cbv zeta. set (g := 2 ^ (Z.log2 a - 52)) in *.
  pose proof (Z.div_mod a g ltac:(lia)) as Hdm.
  pose proof (Z.mod_pos_bound a g Hg) as Hr.
  set (q := a / g) in *. set (r := a mod g) in *.
  assert (2 ^ 52 <= q) by (apply Z.div_le_lower_bound; lia).
  assert (q < 2 ^ 53) by (apply Z.div_lt_upper_bound; lia).
  assert (q * g <= (q + 1) * g) by nia.
  assert (2 ^ 52 * g <= q * g) by nia.
  assert ((q + 1) * g <= 2 ^ 53 * g) by nia.
  repeat case_match; lia.
Qed.

Lemma float_round_pos_small a : a < 2 ^ 53 -> Py.float_round_pos a = a.
Proof.
  intros Ha. unfold Py.float_round_pos.
  by destruct (Z.ltb_spec a (2 ^ 53)) as [_|?]; [|lia].
Qed.

Lemma float_round_pos_mono a b :
  a <= b -> Py.float_round_pos a <= Py.float_round_pos b.
Proof.
  intros Hab.
  destruct (Z.lt_ge_cases b (2 ^ 53)) as [Hb|Hb].
  { rewrite !float_round_pos_small by lia. done. }
  pose proof (float_round_pos_binade b Hb) as Hrb.
  destruct (binade b Hb) as (Hgb & Hblo & Hbhi).
  destruct (Z.lt_ge_cases a (2 ^ 53)) as [Ha|Ha].
  { rewrite (float_round_pos_small a) by lia.
    assert (2 ^ 53 <= 2 ^ 52 * 2 ^ (Z.log2 b - 52)); [|lia].
    assert (2 <= 2 ^ (Z.log2 b - 52)); [|lia].
    assert (53 <= Z.log2 b).
    { rewrite <- (Z.log2_pow2 53) by lia. by apply Z.log2_le_mono. }
    change 2 with (2 ^ 1) at 1. apply Z.pow_le_mono_r; lia. }
  pose proof (float_round_pos_binade a Ha) as Hra.
  destruct (binade a Ha) as (Hga & Halo & Hahi).
  assert (Hla : 53 <= Z.log2 a).
  { rewrite <- (Z.log2_pow2 53) by lia. by apply Z.log2_le_mono. }
  pose proof (Z.log2_le_mono a b Hab) as Hlog.
  destruct (Z.eq_dec (Z.log2 a) (Z.log2 b)) as [Heq|Hne].
  - unfold Py.float_round_pos.
    destruct (Z.ltb_spec a (2 ^ 53)) as [?|_]; [lia|].
    destruct (Z.ltb_spec b (2 ^ 53)) as [?|_]; [lia|].
    cbv zeta. rewrite Heq in *. set (g := 2 ^ (Z.log2 b - 52)) in *.
    pose proof (Z.div_mod a g ltac:(lia)) as Hda.
    pose proof (Z.mod_pos_bound a g Hgb) as Hma.
    pose proof (Z.div_mod b g ltac:(lia)) as Hdb.
    pose proof (Z.mod_pos_bound b g Hgb) as Hmb.
    pose proof (Z.div_le_mono a b g Hgb Hab) as Hq.
    set (qa := a / g) in *. set (ra := a mod g) in *.
    set (qb := b / g) in *. set (rb := b mod g) in *.
    assert (qa * g <= (qa + 1) * g) by nia.
    assert (qb * g <= (qb + 1) * g) by nia.
    destruct (Z.eq_dec qa qb) as [Hqq|Hqq].
    + rewrite Hqq in *. assert (ra <= rb) by lia.
      repeat case_match; lia.
    + assert ((qa + 1) * g <= qb * g) by nia.
      repeat case_match; lia.
  - assert (2 ^ 53 * 2 ^ (Z.log2 a - 52) <= 2 ^ 52 * 2 ^ (Z.log2 b - 52));
      [|lia].
    rewrite <- !Z.pow_add_r by lia. apply Z.pow_le_mono_r; lia.
Qed.

Lemma float_round_pos_nonneg a : 0 <= a -> 0 <= Py.float_round_pos a.
Proof. intros Ha. apply (float_round_pos_mono 0 a Ha). Qed.

(** Rounding keeps the order. *)
Lemma float_round_mono x y : x <= y -> Py.float_round x <= Py.float_round y.
Proof.
  intros Hxy. unfold Py.float_round.
  destruct (Z.leb_spec 0 x), (Z.leb_spec 0 y); try lia.
  - by apply float_round_pos_mono.
  - pose proof (float_round_pos_nonneg (- x)).
    pose proof (float_round_pos_nonneg y). lia.
  - pose proof (float_round_pos_mono (- y) (- x)). lia.
Qed.

Lemma float_round_nonneg x : 0 <= x -> 0 <= Py.float_round x.
Proof. intros Hx. apply (float_round_mono 0 x Hx). Qed.

Lemma float_overflows_false z :
  Py.float_overflows z = false <-> Z.abs z < 2 ^ 1024 - 2 ^ 970.
Proof. unfold Py.float_overflows. apply Z.leb_gt. Qed.

Lemma float_overflows_true z :
  Py.float_overflows z = true <-> 2 ^ 1024 - 2 ^ 970 <= Z.abs z.
Proof. unfold Py.float_overflows. apply Z.leb_le. Qed.

Lemma float_add_int_fits x n :
  Py.float_overflows n = false ->
  Py.float_add_int x n = Ok (Py.float_add x (Py.float_round n)).
Proof. intros H. unfold Py.float_add_int, Py.float_of_int. by rewrite H. Qed.

Lemma float_add_int_overflows x n :
  Py.float_overflows n = true -> Py.float_add_int x n = Raise OverflowError.
Proof. intros H. unfold Py.float_add_int, Py.float_of_int. by rewrite H. Qed.

Lemma float_add_int_cases x n :
  (Py.float_overflows n = false /\
   Py.float_add_int x n = Ok (Py.float_add x (Py.float_round n))) \/
  (Py.float_overflows n = true /\
   Py.float_add_int x n = Raise OverflowError).
Proof.
  destruct (Py.float_overflows n) eqn:H.
  - right. split; [done|]. by apply float_add_int_overflows.
  - left. split; [done|]. by apply float_add_int_fits.
Qed.

(** Adding a timeout that is not negative to a clock reading gives an
    expiration time that is not earlier than the reading. *)
Lemma float_add_int_ge x n exp :
  Py.is_float x -> 0 <= n -> Py.float_add_int x n = Ok exp -> x <= exp.
Proof.
  intros [Hx Hfin] Hn.
  destruct (float_add_int_cases x n) as [[_ ->]|[_ ->]]; [|done].
  intros [= <-]. unfold Py.float_add.
  pose proof (float_round_nonneg n Hn) as Hrn. cbv zeta.
  apply float_overflows_false in Hfin.
  assert (0 < 2 ^ 970) as Hpos by (apply Z.pow_pos_nonneg; lia).
  destruct (Py.float_overflows (x + Py.float_round n)) eqn:Hov.
  - apply float_overflows_true in Hov. unfold Py.float_inf.
    destruct (Z.ltb_spec 0 (x + Py.float_round n)); lia.
  - rewrite <- Hx at 1. apply float_round_mono. lia.
Qed.

(** *** The two assignments of [set] *)

(** The timeout [set] uses: the argument, or the default timeout of the
    backend when the argument is left out. *)
Definition effective_timeout (self : _SimpleCache.t) (timeout : option Z) : Z :=
  match timeout with
  | None => _SimpleCache.default_timeout self
  | Some t => t
  end.

(** The state the cull test of [set] leaves. *)
Definition culled (self : _SimpleCache.t) : _SimpleCache.t :=
  if Z.of_nat (length (_SimpleCache._cache self))
     >=? _SimpleCache._max_entries self
  then if _SimpleCache._cull_frequency self =? 0 then flushed self
       else without self (_SimpleCache.doomed self)
  else self.

(** The backend [self] after the first of the two assignments that end
    [set]. *)
Definition valued (self : _SimpleCache.t) (key : string) (value : pyval)
  : _SimpleCache.t :=
  _SimpleCache.Build
    (_SimpleCache.default_timeout self)
    (ODict.setitem (_SimpleCache._cache self) key value)
    (_SimpleCache._expire_info self)
    (_SimpleCache._max_entries self)
    (_SimpleCache._cull_frequency self).

Lemma default_timeout_culled self :
  _SimpleCache.default_timeout (culled self) = _SimpleCache.default_timeout self.
Proof. unfold culled. by repeat case_match. Qed.

(** [set]: an optional cull pass, the assignment to [_cache], the sum,
    and, when the sum did not raise, the assignment to [_expire_info]. *)
Lemma set_in_place_eq self now key value timeout :
  _SimpleCache.set_in_place self now key value timeout =
  match Py.float_add_int now (effective_timeout self timeout) with
  | Ok exp => (stored (culled self) key value exp, Ok tt)
  | Raise e => (valued (culled self) key value, Raise e)
  end.
Proof.
  unfold _SimpleCache.set_in_place, culled, effective_timeout.
  destruct (Z.of_nat (length (_SimpleCache._cache self))
            >=? _SimpleCache._max_entries self).
  - rewrite _cull_eq.
    destruct (_SimpleCache._cull_frequency self =? 0);
      destruct timeout; reflexivity.
  - destruct timeout; reflexivity.
Qed.

(** [set] returns exactly when its timeout can be converted to a double. *)
Lemma set_eq self now key value timeout :
  Py.float_overflows (effective_timeout self timeout) = false ->
  _SimpleCache.set self now key value timeout =
  Ok (stored (culled self) key value
        (Py.float_add now (Py.float_round (effective_timeout self timeout)))).
Proof.
  intros H. unfold _SimpleCache.set.
  by rewrite set_in_place_eq, float_add_int_fits.
Qed.

Lemma set_raises self now key value timeout :
  Py.float_overflows (effective_timeout self timeout) = true ->
  _SimpleCache.set self now key value timeout = Raise OverflowError.
Proof.
  intros H. unfold _SimpleCache.set.
  by rewrite set_in_place_eq, float_add_int_overflows.
Qed.

Lemma set_returns self now key value timeout self' :
  _SimpleCache.set self now key value timeout = Ok self' ->
  exists exp,
    Py.float_add_int now (effective_timeout self timeout) = Ok exp /\
    self' = stored (culled self) key value exp.
Proof.
  unfold _SimpleCache.set. rewrite set_in_place_eq.
  destruct (Py.float_add_int now (effective_timeout self timeout)) as [exp|e];
    [|done].
  intros [= <-]. by exists exp.
Qed.

Lemma get_expired self now key dflt v exp :
  ODict.lookup (_SimpleCache._cache self) key = Some v ->
  _SimpleCache._expire_info self !! key = Some exp ->
  exp < now ->
  _SimpleCache.get self now key dflt = Ok (dflt, without self [key]).
Proof.
  intros Hc He Hlt. unfold _SimpleCache.get. rewrite He. simpl.
  apply Z.ltb_lt in Hlt. rewrite Hlt.
  unfold ODict.delitem, ODict.has_key, delitem. rewrite Hc. simpl.
  rewrite He. simpl. unfold without.
  by rewrite <- remove_as_filter, <- delete_as_filter.
Qed.

Lemma get_unexpired self now key dflt exp :
  _SimpleCache._expire_info self !! key = Some exp ->
  now <= exp ->
  _SimpleCache.get self now key dflt =
  Ok (ODict.get (_SimpleCache._cache self) key dflt, self).
Proof.
  intros He Hle. unfold _SimpleCache.get. rewrite He. simpl.
  apply Z.ltb_ge in Hle. by rewrite Hle.
Qed.

Lemma get_untimed self now key dflt :
  _SimpleCache._expire_info self !! key = None ->
  _SimpleCache.get self now key dflt =
  Ok (ODict.get (_SimpleCache._cache self) key dflt, self).
Proof.
  intros He. unfold _SimpleCache.get. rewrite He. simpl.
  by rewrite Z.ltb_irrefl.
Qed.

Lemma lookup_cache_without self ks k :
  ODict.lookup (_SimpleCache._cache (without self ks)) k =
  if decide (k ∈ ks) then None else ODict.lookup (_SimpleCache._cache self) k.
Proof.
  unfold without. simpl. induction (_SimpleCache._cache self) as [|[k' v'] d IH].
  - by destruct (decide (k ∈ ks)).
  - rewrite filter_cons. simpl. destruct (decide (k' ∉ ks)) as [Hk'|Hk']; simpl.
    + destruct (decide (k' = k)) as [->|Hne]; [by case_decide|done].
    + apply dec_stable in Hk'. rewrite IH.
      destruct (decide (k' = k)) as [->|Hne]; [by case_decide|done].
Qed.

Lemma lookup_expire_without self ks k :
  _SimpleCache._expire_info (without self ks) !! k =
  if decide (k ∈ ks) then None else _SimpleCache._expire_info self !! k.
Proof.
  unfold without. simpl. rewrite map_lookup_filter.
  destruct (_SimpleCache._expire_info self !! k); simpl.
  - destruct (decide (k ∈ ks)).
    + by rewrite option_guard_False by (simpl; tauto).
    + by rewrite option_guard_True.
  - by destruct (decide (k ∈ ks)).
Qed.

(** ** Construction *)

(** The only exceptions [int()] raises are the two that the constructors
    catch. *)
Lemma unsigned_literal_raises s e :
  Py.unsigned_literal s = Raise e -> e = ValueError.
Proof.
  unfold Py.unsigned_literal.
  destruct s; [congruence|]. destruct (Py.digits 0 _); congruence.
Qed.

Lemma int_raises v e :
  Py.int v = Raise e -> e = ValueError \/ e = TypeError.
Proof.
  destruct v as [|n|s]; simpl; [intros [= <-]; by right|done|].
  unfold Py.int_of_string. intros H. left.
  destruct (Py.strip s) as [|c t]; [congruence|].
  destruct (Ascii.eqb c "-").
  - destruct (Py.unsigned_literal t) eqn:Hu; simpl in H; [done|].
    injection H as <-. by eapply unsigned_literal_raises.
  - destruct (Ascii.eqb c "+"); by eapply unsigned_literal_raises.
Qed.

(** The value a constructor gives a setting: the parameter coerced by
    [int()], or the default when the parameter is missing or [int()]
    raises on it. *)
Definition setting (params : gmap string pyval) (name : string) (dflt : Z)
  : Z :=
  match params !! name with
  | Some v => match Py.int v with Ok n => n | Raise _ => dflt end
  | None => dflt
  end.

Lemma coerce_or_default params name dflt :
  try_except_ValueError_TypeError
    (Py.int (default (PyInt dflt) (params !! name))) (Ok dflt)
  = Ok (setting params name dflt).
Proof.
  unfold setting. destruct (params !! name) as [v|]; simpl; [|done].
  destruct (Py.int v) as [n|e] eqn:Hv; simpl; [done|].
  by destruct (int_raises v e Hv) as [-> | ->].
Qed.

Lemma _Cache__init___eq params :
  _Cache.__init__ params = Ok (setting params "timeout" 300).
Proof. unfold _Cache.__init__. by rewrite coerce_or_default. Qed.

Lemma __init___eq host params :
  _SimpleCache.__init__ host params =
  Ok (_SimpleCache.Build (setting params "timeout" 300) [] ∅
        (setting params "max_entries" 300)
        (setting params "cull_frequency" 3)).
Proof.
  unfold _SimpleCache.__init__.
  rewrite _Cache__init___eq. simpl. by rewrite !coerce_or_default.
Qed.

(** The backend that [simple:///] yields: default parameters, empty maps. *)
Definition fresh : _SimpleCache.t := _SimpleCache.Build 300 [] ∅ 300 3.

Lemma fresh_constructed : _SimpleCache.__init__ "" ∅ = Ok fresh.
Proof. reflexivity. Qed.

(** ** Reading an entry: [get] and [has_key] *)

(** A claim about [get] as the specification words it: an entry is
    returned when its expiration time lies strictly after the time of the
    read, and otherwise the default is returned and the entry leaves both
    maps. *)
Definition visible_iff_strictly_future (self : _SimpleCache.t) (now : Z)
    (key : string) (dflt : pyval) : Prop :=
  forall v exp,
    ODict.lookup (_SimpleCache._cache self) key = Some v ->
    _SimpleCache._expire_info self !! key = Some exp ->
    (now < exp -> _SimpleCache.get self now key dflt = Ok (v, self)) /\
    (~ now < exp ->
     exists self',
       _SimpleCache.get self now key dflt = Ok (dflt, self') /\
       ODict.lookup (_SimpleCache._cache self') key = None /\
       _SimpleCache._expire_info self' !! key = None).

(** C3, as stated, fails: an entry stored at time 100 with timeout 0
    expires at 100, and a read at exactly 100 still returns its value
    and leaves it in place. *)
Lemma get_at_expiration_instant :
  _SimpleCache.set fresh 100 "k" (PyStr "v") (Some 0)
    = Ok (stored fresh "k" (PyStr "v") 100) /\
  ~ visible_iff_strictly_future (stored fresh "k" (PyStr "v") 100)
      100 "k" PyNone.
Proof.
  split; [reflexivity|]. intros H.
  destruct (H (PyStr "v") 100) as [_ H2]; [reflexivity..|].
  destruct H2 as (self' & Hget & _); [lia|].
  vm_compute in Hget. discriminate Hget.
Qed.

(** C3, amended: for a stored entry, [get] returns the value and changes
    nothing when the expiration time is not less than the time of the
    read; when it is less, [get] returns the default and the entry is
    gone from both maps. *)
Theorem get_visible_unless_expired self now key dflt v exp :
  ODict.lookup (_SimpleCache._cache self) key = Some v ->
  _SimpleCache._expire_info self !! key = Some exp ->
  (now <= exp -> _SimpleCache.get self now key dflt = Ok (v, self)) /\
  (exp < now ->
   exists self',
     _SimpleCache.get self now key dflt = Ok (dflt, self') /\
     ODict.lookup (_SimpleCache._cache self') key = None /\
     _SimpleCache._expire_info self' !! key = None /\
     forall k, k ≠ key ->
       ODict.lookup (_SimpleCache._cache self') k
         = ODict.lookup (_SimpleCache._cache self) k /\
       _SimpleCache._expire_info self' !! k
         = _SimpleCache._expire_info self !! k).
Proof.
  intros Hc He. split.
  - intros Hle. rewrite (get_unexpired _ _ _ _ exp) by done.
    unfold ODict.get. by rewrite Hc.
  - intros Hlt. exists (without self [key]).
    rewrite (get_expired _ _ _ _ v exp) by done.
    rewrite lookup_cache_without, lookup_expire_without.
    rewrite !decide_True by (by apply list_elem_of_singleton).
    repeat split; try done.
    + rewrite lookup_cache_without.
      by rewrite decide_False by (by rewrite list_elem_of_singleton).
    + rewrite lookup_expire_without.
      by rewrite decide_False by (by rewrite list_elem_of_singleton).
Qed.

Lemma get_visible_unless_expired_witness :
  (100 <= 100 ->
   _SimpleCache.get (stored fresh "k" (PyStr "v") 100) 100 "k" PyNone
     = Ok (PyStr "v", stored fresh "k" (PyStr "v") 100)) /\
  (100 < 101 ->
   exists self',
     _SimpleCache.get (stored fresh "k" (PyStr "v") 100) 101 "k" PyNone
       = Ok (PyNone, self') /\
     ODict.lookup (_SimpleCache._cache self') "k" = None /\
     _SimpleCache._expire_info self' !! "k" = None).
Proof.
  split.
  - apply (get_visible_unless_expired
             (stored fresh "k" (PyStr "v") 100) 100 "k" PyNone (PyStr "v") 100);
      reflexivity.
  - intros Hlt.
    destruct (get_visible_unless_expired
                (stored fresh "k" (PyStr "v") 100) 101 "k" PyNone
                (PyStr "v") 100 eq_refl eq_refl) as [_ H].
    destruct (H Hlt) as (self' & Hget & Hc & He & _).
    exists self'. repeat split; assumption.
Defined.

(** C2: for an entry that is stored but expired, [has_key] answers [True]
    while [get(key) is not None], the test the base class documents for
    [has_key], is [False]. *)
Theorem has_key_ignores_expiration self now key v exp :
  ODict.lookup (_SimpleCache._cache self) key = Some v ->
  _SimpleCache._expire_info self !! key = Some exp ->
  exp < now ->
  _SimpleCache.has_key self key = true /\
  exists self',
    _Cache.has_key _SimpleCache.get self now key = Ok (false, self').
Proof.
  intros Hc He Hlt. split.
  - unfold _SimpleCache.has_key, ODict.has_key. by rewrite Hc.
  - exists (without self [key]). unfold _Cache.has_key.
    by rewrite (get_expired _ _ _ _ v exp).
Qed.

Lemma has_key_ignores_expiration_witness :
  _SimpleCache.set fresh 100 "k" (PyStr "v") (Some 0)
    = Ok (stored fresh "k" (PyStr "v") 100) /\
  _SimpleCache.has_key (stored fresh "k" (PyStr "v") 100) "k" = true /\
  exists self',
    _Cache.has_key _SimpleCache.get (stored fresh "k" (PyStr "v") 100)
      101 "k" = Ok (false, self').
Proof.
  split; [reflexivity|].
  apply (has_key_ignores_expiration
           (stored fresh "k" (PyStr "v") 100) 101 "k" (PyStr "v") 100);
    [reflexivity | reflexivity | lia].
Defined.

(** ** Writing then reading *)

(** A claim as the specification words it: [set(key, value)] followed at
    once by [get(key)] returns [value]. *)
Definition set_then_get_returns (self : _SimpleCache.t) (now : Z)
    (key : string) (value : pyval) : Prop :=
  exists self',
    _SimpleCache.set self now key value None = Ok self' /\
    exists self'',
      _SimpleCache.get self' now key PyNone = Ok (value, self'').

(** The backend of the descriptor [simple:///?timeout=-1]. *)
Definition impatient : _SimpleCache.t := _SimpleCache.Build (-1) [] ∅ 300 3.

(** C9, as stated, fails: with a negative default timeout an entry is
    written already expired, and the read that follows purges it. *)
Lemma set_then_get_negative_timeout :
  _SimpleCache.__init__ "" {[ "timeout" := PyStr "-1" ]} = Ok impatient /\
  ~ set_then_get_returns impatient 100 "k" (PyStr "v").
Proof.
  split; [reflexivity|].
  intros (self' & Hset & self'' & Hget).
  vm_compute in Hset. injection Hset as <-.
  vm_compute in Hget. discriminate Hget.
Qed.

(** C9, amended: in a backend whose default timeout is not negative and
    is small enough to be converted to a double (its magnitude is below
    2^1024 - 2^970), [set(key, value)] returns, and the [get(key)] that
    follows at the same clock reading returns [value] (and the read
    changes nothing). *)
Theorem set_then_get self now key value dflt :
  Py.is_float now ->
  0 <= _SimpleCache.default_timeout self ->
  Py.float_overflows (_SimpleCache.default_timeout self) = false ->
  exists self',
    _SimpleCache.set self now key value None = Ok self' /\
    _SimpleCache.get self' now key dflt = Ok (value, self').
Proof.
  intros Hnow Hdt Hfits. rewrite set_eq by done. eexists.
  split; [reflexivity|].
  rewrite (get_unexpired _ _ _ _
             (Py.float_add now
                (Py.float_round (effective_timeout self None)))).
  - unfold ODict.get, stored. simpl. by rewrite lookup_setitem_eq.
  - unfold stored. simpl. apply lookup_insert_eq.
  - apply (float_add_int_ge now (effective_timeout self None)); [done..|].
    by apply float_add_int_fits.
Qed.

Lemma set_then_get_witness :
  Py.is_float 100 /\
  0 <= _SimpleCache.default_timeout fresh /\
  Py.float_overflows (_SimpleCache.default_timeout fresh) = false /\
  exists self',
    _SimpleCache.set fresh 100 "k" (PyStr "v") None = Ok self' /\
    _SimpleCache.get self' 100 "k" PyNone = Ok (PyStr "v", self').
Proof.
  split; [by split|]. split; [simpl; lia|]. split; [reflexivity|].
  apply (set_then_get fresh 100 "k" (PyStr "v") PyNone);
    [by split | simpl; lia | reflexivity].
Defined.

(** ** The two maps hold the same keys *)

Definition same_keys (self : _SimpleCache.t) : Prop :=
  forall k,
    k ∈ ODict.keys (_SimpleCache._cache self) <->
    k ∈ dom (_SimpleCache._expire_info self).

Lemma same_keys_lookup self k :
  same_keys self ->
  is_Some (ODict.lookup (_SimpleCache._cache self) k) <->
  is_Some (_SimpleCache._expire_info self !! k).
Proof. intros H. rewrite lookup_is_Some, <- elem_of_dom. apply H. Qed.

Lemma same_keys_flushed self : same_keys (flushed self).
Proof.
  intros k. unfold flushed, ODict.keys. simpl.
  rewrite dom_empty_L, elem_of_nil. set_solver.
Qed.

Lemma same_keys_without self ks : same_keys self -> same_keys (without self ks).
Proof.
  intros H k.
  rewrite <- lookup_is_Some, elem_of_dom.
  rewrite lookup_cache_without, lookup_expire_without.
  destruct (decide (k ∈ ks)).
  - split; intros [? ?]; discriminate.
  - by apply same_keys_lookup.
Qed.

Lemma same_keys_stored self key value exp :
  same_keys self -> same_keys (stored self key value exp).
Proof.
  intros H k. rewrite <- lookup_is_Some, elem_of_dom. unfold stored. simpl.
  destruct (decide (key = k)) as [->|Hne].
  - rewrite lookup_setitem_eq, lookup_insert_eq. split; eauto.
  - rewrite lookup_setitem_ne, lookup_insert_ne by done.
    by apply same_keys_lookup.
Qed.

(** Every key of the expiration map is a key of the value map. *)
Definition expiring_keys_stored (self : _SimpleCache.t) : Prop :=
  forall k,
    k ∈ dom (_SimpleCache._expire_info self) ->
    k ∈ ODict.keys (_SimpleCache._cache self).

Lemma same_keys_expiring_keys_stored self :
  same_keys self -> expiring_keys_stored self.
Proof. intros H k. apply H. Qed.

Lemma expiring_keys_stored_lookup self k :
  expiring_keys_stored self ->
  is_Some (_SimpleCache._expire_info self !! k) ->
  is_Some (ODict.lookup (_SimpleCache._cache self) k).
Proof. intros H. rewrite lookup_is_Some, <- elem_of_dom. apply H. Qed.

Lemma expiring_keys_stored_flushed self : expiring_keys_stored (flushed self).
Proof. apply same_keys_expiring_keys_stored, same_keys_flushed. Qed.

Lemma expiring_keys_stored_without self ks :
  expiring_keys_stored self -> expiring_keys_stored (without self ks).
Proof.
  intros H k.
  rewrite <- lookup_is_Some, elem_of_dom.
  rewrite lookup_cache_without, lookup_expire_without.
  destruct (decide (k ∈ ks)); [by intros [? ?]|].
  by apply expiring_keys_stored_lookup.
Qed.

Lemma expiring_keys_stored_culled self :
  expiring_keys_stored self -> expiring_keys_stored (culled self).
Proof.
  intros H. unfold culled.
  repeat case_match;
    auto using expiring_keys_stored_flushed, expiring_keys_stored_without.
Qed.

Lemma expiring_keys_stored_valued self key value :
  expiring_keys_stored self -> expiring_keys_stored (valued self key value).
Proof.
  intros H k. rewrite <- lookup_is_Some, elem_of_dom. unfold valued. simpl.
  intros Hk. destruct (decide (key = k)) as [->|Hne].
  - rewrite lookup_setitem_eq. eauto.
  - rewrite lookup_setitem_ne by done. by apply expiring_keys_stored_lookup.
Qed.

Lemma expiring_keys_stored_stored self key value exp :
  expiring_keys_stored self ->
  expiring_keys_stored (stored self key value exp).
Proof.
  intros H k. rewrite <- lookup_is_Some, elem_of_dom. unfold stored. simpl.
  destruct (decide (key = k)) as [->|Hne].
  - rewrite lookup_setitem_eq. eauto.
  - rewrite lookup_setitem_ne, lookup_insert_ne by done.
    by apply expiring_keys_stored_lookup.
Qed.

Lemma same_keys_culled self : same_keys self -> same_keys (culled self).
Proof.
  intros H. unfold culled.
  repeat case_match; auto using same_keys_flushed, same_keys_without.
Qed.

(** When the keys of the expiration map are keys of the value map, [get]
    returns: the paired deletions find the key in both maps. *)
Lemma get_total self now key dflt :
  expiring_keys_stored self ->
  exists r self',
    _SimpleCache.get self now key dflt = Ok (r, self') /\
    expiring_keys_stored self' /\
    (same_keys self -> same_keys self').
Proof.
  intros H.
  destruct (_SimpleCache._expire_info self !! key) as [exp|] eqn:He.
  - destruct (Z.lt_ge_cases exp now) as [Hlt|Hge].
    + destruct (expiring_keys_stored_lookup self key H) as [v Hc]; [by eauto|].
      exists dflt, (without self [key]).
      rewrite (get_expired _ _ _ _ v exp) by done.
      split; [done|].
      split; [by apply expiring_keys_stored_without|].
      by apply same_keys_without.
    + eexists _, self. by rewrite (get_unexpired _ _ _ _ exp).
  - eexists _, self. by rewrite get_untimed.
Qed.

(** A claim as the specification words it: [set] keeps the two maps on
    the same keys, that is, the maps of the object a call of [set]
    leaves have the same keys when those of the object it was called on
    had. *)
Definition set_keeps_same_keys (self : _SimpleCache.t) (now : Z)
    (key : string) (value : pyval) (timeout : option Z) : Prop :=
  same_keys self ->
  same_keys (_SimpleCache.set_in_place self now key value timeout).1.

(** C10, as stated, fails: a [set] with the timeout 10^309, which is too
    large to be converted to a double, raises [OverflowError] after it
    has written the value and before it writes the expiration time; the
    value map of the new backend then holds the key and the expiration
    map does not. *)
Lemma set_overflow_splits_keys :
  same_keys fresh /\
  _SimpleCache.set_in_place fresh 100 "k" (PyStr "v") (Some (10 ^ 309))
    = (valued fresh "k" (PyStr "v"), Raise OverflowError) /\
  ~ set_keeps_same_keys fresh 100 "k" (PyStr "v") (Some (10 ^ 309)).
Proof.
  assert (_SimpleCache.set_in_place fresh 100 "k" (PyStr "v") (Some (10 ^ 309))
          = (valued fresh "k" (PyStr "v"), Raise OverflowError)) as Hset
    by (vm_compute; reflexivity).
  split; [apply (same_keys_flushed fresh)|]. split; [exact Hset|].
  intros H. specialize (H (same_keys_flushed fresh)). rewrite Hset in H.
  destruct (H "k") as [Hk _].
  apply elem_of_dom in Hk as [exp Hexp]; [|apply list_elem_of_here].
  discriminate Hexp.
Qed.

(** C10, amended: every key of the expiration map is a key of the value
    map after construction (both maps are empty), and [get], [set],
    [delete] and the cull pass keep it so, [set] also when it raises
    [OverflowError] for a timeout too large to be converted to a double,
    which is the only way any of them raises on an integer timeout; in
    particular the paired
    deletions of [get] never meet a key that one of the maps lacks.  The
    two maps have the same keys after construction, and [get], [delete],
    the cull pass and every [set] that returns keep them so. *)
Theorem expiring_keys_invariant :
  (forall host params,
     exists self,
       _SimpleCache.__init__ host params = Ok self /\ same_keys self) /\
  (forall self,
     expiring_keys_stored self ->
     (forall now key dflt,
        exists r self',
          _SimpleCache.get self now key dflt = Ok (r, self') /\
          expiring_keys_stored self' /\
          (same_keys self -> same_keys self')) /\
     (forall now key value timeout,
        exists self' outcome,
          _SimpleCache.set_in_place self now key value timeout
            = (self', outcome) /\
          expiring_keys_stored self' /\
          (Py.float_overflows (effective_timeout self timeout) = false ->
           outcome = Ok tt /\
           _SimpleCache.set self now key value timeout = Ok self' /\
           (same_keys self -> same_keys self')) /\
          (Py.float_overflows (effective_timeout self timeout) = true ->
           outcome = Raise OverflowError /\
           _SimpleCache.set self now key value timeout
             = Raise OverflowError)) /\
     (forall key,
        exists self',
          _SimpleCache.delete self key = Ok self' /\
          expiring_keys_stored self' /\
          (same_keys self -> same_keys self')) /\
     (exists self',
        _SimpleCache._cull self = Ok self' /\
        expiring_keys_stored self' /\
        (same_keys self -> same_keys self'))).
Proof.
  split.
  - intros host params. rewrite __init___eq. eexists. split; [reflexivity|].
    intros k. unfold ODict.keys. simpl. rewrite dom_empty_L, elem_of_nil.
    by rewrite elem_of_empty.
  - intros self H. split; [|split; [|split]].
    + intros now key dflt. by apply get_total.
    + intros now key value timeout. unfold _SimpleCache.set.
      rewrite set_in_place_eq.
      destruct (float_add_int_cases now (effective_timeout self timeout))
        as [[Hfits ->]|[Hover ->]]; eexists _, _; (split; [reflexivity|]).
      * split; [by apply expiring_keys_stored_stored,
                         expiring_keys_stored_culled|].
        split; [|congruence]. intros _. split; [done|]. split; [done|].
        intros Hkeys. by apply same_keys_stored, same_keys_culled.
      * split; [by apply expiring_keys_stored_valued,
                         expiring_keys_stored_culled|].
        split; [congruence|]. done.
    + intros key. rewrite delete_eq. eexists. split; [reflexivity|].
      split; [by apply expiring_keys_stored_without|].
      by apply same_keys_without.
    + rewrite _cull_eq. eexists. split; [reflexivity|].
      case_match; split;
        auto using expiring_keys_stored_flushed, expiring_keys_stored_without,
                   same_keys_flushed, same_keys_without.
Qed.

Lemma expiring_keys_invariant_witness :
  expiring_keys_stored (valued fresh "k" (PyStr "v")) /\
  (exists r self',
     _SimpleCache.get (valued fresh "k" (PyStr "v")) 101 "k" PyNone
       = Ok (r, self') /\
     expiring_keys_stored self') /\
  same_keys (stored fresh "k" (PyStr "v") 100) /\
  exists r self',
    _SimpleCache.get (stored fresh "k" (PyStr "v") 100) 101 "k" PyNone
      = Ok (r, self') /\
    same_keys self'.
Proof.
  assert (H0 : same_keys fresh).
  { destruct (proj1 expiring_keys_invariant "" ∅) as (self & Hself & Hkeys).
    rewrite fresh_constructed in Hself. by injection Hself as ->. }
  assert (I0 : expiring_keys_stored fresh) by (intros k; apply H0).
  destruct (proj2 expiring_keys_invariant fresh I0) as (_ & Hset & _).
  assert (I1 : expiring_keys_stored (valued fresh "k" (PyStr "v"))).
  { destruct (Hset 100 "k" (PyStr "v") (Some (10 ^ 309)))
      as (self' & outcome & Hself' & Hkeys & _).
    vm_compute in Hself'. injection Hself' as <- _. exact Hkeys. }
  assert (H1 : same_keys (stored fresh "k" (PyStr "v") 100)).
  { destruct (Hset 100 "k" (PyStr "v") (Some 0))
      as (self' & outcome & Hself' & _ & Hfits & _).
    vm_compute in Hself'. injection Hself' as <- _.
    destruct Hfits as (_ & _ & Hkeys); [reflexivity|]. exact (Hkeys H0). }
  split; [exact I1|]. split.
  - destruct (proj2 expiring_keys_invariant _ I1) as (Hget & _).
    destruct (Hget 101 "k" PyNone) as (r & self' & Hr & Hkeys & _).
    by exists r, self'.
  - split; [exact H1|].
    destruct (proj2 expiring_keys_invariant _
                (same_keys_expiring_keys_stored _ H1)) as (Hget & _).
    destruct (Hget 101 "k" PyNone) as (r & self' & Hr & _ & Hkeys).
    exists r, self'. split; [exact Hr|]. exact (Hkeys H1).
Defined.

(** [_cache] stays a dictionary, one item per key, under every method. *)
Lemma wf_cache_preserved self :
  ODict.wf (_SimpleCache._cache self) ->
  (forall now key dflt r self',
     _SimpleCache.get self now key dflt = Ok (r, self') ->
     ODict.wf (_SimpleCache._cache self')) /\
  (forall now key value timeout self',
     _SimpleCache.set self now key value timeout = Ok self' ->
     ODict.wf (_SimpleCache._cache self')) /\
  (forall key self',
     _SimpleCache.delete self key = Ok self' ->
     ODict.wf (_SimpleCache._cache self')) /\
  (forall self',
     _SimpleCache._cull self = Ok self' ->
     ODict.wf (_SimpleCache._cache self')).
Proof.
  intros Hwf.
  assert (forall ks, ODict.wf (_SimpleCache._cache (without self ks))) as Hwo.
  { intros ks. unfold without. cbn [_SimpleCache._cache]. by apply wf_filter. }
  assert (ODict.wf (_SimpleCache._cache (flushed self))) as Hfl.
  { apply NoDup_nil_2. }
  split; [|split; [|split]].
  - intros now key dflt r self'. unfold _SimpleCache.get.
    destruct (_ <? now).
    + unfold ODict.delitem, delitem. cbn [_SimpleCache._expire_info _SimpleCache.with_cache].
      destruct (ODict.has_key _ key); [|done]. simpl.
      destruct (_ !! key); [|done]. simpl. intros [= _ <-]. simpl.
      rewrite remove_as_filter. by apply wf_filter.
    + by intros [= _ <-].
  - intros now key value timeout self' (exp & _ & ->)%set_returns.
    unfold stored, culled. cbn [_SimpleCache._cache]. apply wf_setitem.
    repeat case_match; auto.
  - intros key self'. rewrite delete_eq. by intros [= <-].
  - intros self'. rewrite _cull_eq. intros [= <-]. case_match; auto.
Qed.

(** ** The cull pass *)

Lemma elem_of_doomed self k :
  k ∈ _SimpleCache.doomed self <->
  exists i : nat,
    ODict.keys (_SimpleCache._cache self) !! i = Some k /\
    Z.of_nat i mod _SimpleCache._cull_frequency self = 0.
Proof.
  unfold _SimpleCache.doomed, enumerate. rewrite list_elem_of_fmap. split.
  - intros ([i k'] & -> & [Hmod Hin]%list_elem_of_filter).
    apply elem_of_lookup_imap in Hin as (j & y & [= -> ->] & Hj).
    by exists j.
  - intros (i & Hi & Hmod). exists (i, k). split; [done|].
    apply list_elem_of_filter. split; [done|].
    apply elem_of_lookup_imap. by exists i, k.
Qed.

(** The cull pass always takes the first entry. *)
Lemma first_key_doomed self k v d :
  _SimpleCache._cache self = (k, v) :: d -> k ∈ _SimpleCache.doomed self.
Proof.
  intros Hc. apply elem_of_doomed. exists 0%nat. rewrite Hc. split; [done|].
  apply Zmod_0_l.
Qed.

Lemma cull_shrinks self :
  _SimpleCache._cache self ≠ [] ->
  (length (_SimpleCache._cache (without self (_SimpleCache.doomed self)))
   < length (_SimpleCache._cache self))%nat.
Proof.
  intros Hne. destruct (_SimpleCache._cache self) as [|[k v] d] eqn:Hc; [done|].
  unfold without. cbn [_SimpleCache._cache]. rewrite Hc.
  apply (length_filter_lt _ _ (k, v)); [by left|].
  intros Hk. apply Hk. simpl. by eapply first_key_doomed.
Qed.

(** ** Capacity *)

(** A claim as the specification words it: a [set] on a backend whose
    entry count equals [max_entries] culls, then inserts, and leaves at
    most [max_entries] entries. *)
Definition set_at_capacity_stays_within (self : _SimpleCache.t) (now : Z)
    (key : string) (value : pyval) (timeout : option Z) : Prop :=
  Z.of_nat (length (_SimpleCache._cache self)) = _SimpleCache._max_entries self ->
  exists culled self',
    _SimpleCache._cull self = Ok culled /\
    _SimpleCache.set self now key value timeout = Ok self' /\
    Z.of_nat (length (_SimpleCache._cache self'))
      <= _SimpleCache._max_entries self.

(** The backend of the descriptor [simple:///?max_entries=0]. *)
Definition bottomless : _SimpleCache.t := _SimpleCache.Build 300 [] ∅ 0 3.

(** C4, as stated, fails: with [max_entries] 0 the empty backend is at
    capacity, the cull pass has nothing to remove, and the insert leaves
    one entry. *)
Lemma set_at_capacity_zero :
  _SimpleCache.__init__ "" {[ "max_entries" := PyStr "0" ]} = Ok bottomless /\
  ~ set_at_capacity_stays_within bottomless 100 "k" (PyStr "v") None.
Proof.
  split; [reflexivity|]. intros H.
  destruct H as (culled & self' & _ & Hset & Hlen); [reflexivity|].
  vm_compute in Hset. injection Hset as <-. vm_compute in Hlen. by apply Hlen.
Qed.

Lemma culled_full self :
  _SimpleCache._max_entries self
    <= Z.of_nat (length (_SimpleCache._cache self)) ->
  _SimpleCache._cull self = Ok (culled self).
Proof.
  intros Hfull. rewrite _cull_eq. unfold culled.
  by replace (Z.of_nat (length (_SimpleCache._cache self))
              >=? _SimpleCache._max_entries self) with true
    by (symmetry; apply Z.geb_le; lia).
Qed.

(** What the cull test leaves has room for one more entry. *)
Lemma culled_has_room self :
  1 <= _SimpleCache._max_entries self ->
  Z.of_nat (length (_SimpleCache._cache self))
    <= _SimpleCache._max_entries self ->
  Z.of_nat (length (_SimpleCache._cache (culled self)))
    < _SimpleCache._max_entries self.
Proof.
  intros Hpos Hlen. unfold culled.
  destruct (Z.geb_spec (Z.of_nat (length (_SimpleCache._cache self)))
              (_SimpleCache._max_entries self)) as [Hfull|Hroom]; [|lia].
  destruct (_SimpleCache._cull_frequency self =? 0); [simpl; lia|].
  assert (_SimpleCache._cache self ≠ []) as Hne.
  { intros Hnil. rewrite Hnil in Hfull. simpl in Hfull. lia. }
  apply cull_shrinks in Hne. lia.
Qed.

(** C4, amended: on a backend whose entry count equals a [max_entries] of
    at least 1, [set] runs the cull pass and writes the value into what
    the pass left, and the call ends with at most [max_entries] entries,
    whatever [cull_frequency] is, whether it returns, having written the
    expiration time too, or raises [OverflowError] on a timeout too large
    to be converted to a double. *)
Theorem set_at_capacity self now key value timeout :
  Z.of_nat (length (_SimpleCache._cache self)) = _SimpleCache._max_entries self ->
  1 <= _SimpleCache._max_entries self ->
  exists pruned self' outcome,
    _SimpleCache._cull self = Ok pruned /\
    _SimpleCache.set_in_place self now key value timeout = (self', outcome) /\
    _SimpleCache._cache self'
      = ODict.setitem (_SimpleCache._cache pruned) key value /\
    Z.of_nat (length (_SimpleCache._cache self'))
      <= _SimpleCache._max_entries self /\
    (Py.float_overflows (effective_timeout self timeout) = false ->
     outcome = Ok tt /\
     _SimpleCache.set self now key value timeout = Ok self' /\
     self' = stored pruned key value
               (Py.float_add now
                  (Py.float_round (effective_timeout self timeout)))) /\
    (Py.float_overflows (effective_timeout self timeout) = true ->
     outcome = Raise OverflowError /\
     _SimpleCache.set self now key value timeout = Raise OverflowError /\
     self' = valued pruned key value).
Proof.
  intros Hfull Hpos. rewrite culled_full by lia.
  unfold _SimpleCache.set. rewrite set_in_place_eq.
  pose proof (culled_has_room self Hpos ltac:(lia)) as Hroom.
  pose proof (length_setitem (_SimpleCache._cache (culled self)) key value)
    as Hlen.
  destruct (float_add_int_cases now (effective_timeout self timeout))
    as [[Hfits ->]|[Hover ->]]; eexists _, _, _;
    (split; [reflexivity|]); (split; [reflexivity|]);
    (split; [reflexivity|]);
    (split; [unfold stored, valued; cbn [_SimpleCache._cache]; lia|]);
    split; intros; (done || congruence).
Qed.

Lemma set_at_capacity_witness :
  Z.of_nat (length (_SimpleCache._cache
     (_SimpleCache.Build 300 [("a", PyInt 1); ("b", PyInt 2)]
        {[ "a" := 400; "b" := 400 ]} 2 3))) = 2 /\
  1 <= 2 /\
  exists pruned self' outcome,
    _SimpleCache._cull
      (_SimpleCache.Build 300 [("a", PyInt 1); ("b", PyInt 2)]
         {[ "a" := 400; "b" := 400 ]} 2 3) = Ok pruned /\
    _SimpleCache.set_in_place
      (_SimpleCache.Build 300 [("a", PyInt 1); ("b", PyInt 2)]
         {[ "a" := 400; "b" := 400 ]} 2 3) 100 "c" (PyInt 3)
      (Some (10 ^ 309)) = (self', outcome) /\
    Z.of_nat (length (_SimpleCache._cache self')) <= 2.
Proof.
  split; [reflexivity|]. split; [lia|].
  destruct (set_at_capacity
              (_SimpleCache.Build 300 [("a", PyInt 1); ("b", PyInt 2)]
                 {[ "a" := 400; "b" := 400 ]} 2 3) 100 "c" (PyInt 3)
              (Some (10 ^ 309)))
    as (pruned & self' & outcome & Hcull & Hset & _ & Hlen & _);
    [reflexivity | simpl; lia |].
  exists pruned, self', outcome. repeat split; assumption.
Defined.

(** ** Which entries the cull pass removes *)

(** Filtering a list by a property of its elements that is decided by
    their positions is filtering its enumeration. *)
Lemma filter_by_position {A} (Q : A -> Prop) `{!forall x, Decision (Q x)}
    (P : nat -> Prop) `{!forall i, Decision (P i)} (l : list A)
    (g : nat -> nat) :
  (forall (i : nat) x, l !! i = Some x -> Q x <-> P (g i)) ->
  filter Q l = (filter (fun ix => P ix.1) (imap (fun i x => (g i, x)) l)).*2.
Proof.
  revert g. induction l as [|x l IH]; intros g Hl; [done|].
  rewrite imap_cons, !filter_cons. simpl.
  pose proof (Hl 0%nat x eq_refl) as Hx.
  rewrite (IH (g ∘ S)) by (intros i y Hi; apply (Hl (S i) y Hi)).
  destruct (decide (Q x)), (decide (P (g 0%nat))); try tauto; done.
Qed.

Lemma doomed_at_position self (i : nat) k v :
  ODict.wf (_SimpleCache._cache self) ->
  _SimpleCache._cache self !! i = Some (k, v) ->
  k ∈ _SimpleCache.doomed self <->
  Z.of_nat i mod _SimpleCache._cull_frequency self = 0.
Proof.
  intros Hwf Hi. rewrite elem_of_doomed.
  assert (ODict.keys (_SimpleCache._cache self) !! i = Some k) as Hk.
  { unfold ODict.keys. by rewrite list_lookup_fmap, Hi. }
  split.
  - intros (j & Hj & Hjmod). by rewrite (NoDup_lookup _ _ _ _ Hwf Hk Hj).
  - intros Hmod. by exists i.
Qed.

Lemma doomed_is_stored self k :
  k ∈ _SimpleCache.doomed self -> k ∈ ODict.keys (_SimpleCache._cache self).
Proof.
  rewrite elem_of_doomed. intros (i & Hi & _). by eapply list_elem_of_lookup_2.
Qed.

(** The entries a cull pass keeps are those at the positions that the
    frequency does not divide, in their order. *)
Lemma kept_by_position self :
  ODict.wf (_SimpleCache._cache self) ->
  _SimpleCache._cache (without self (_SimpleCache.doomed self)) =
  (filter (fun ikv => Z.of_nat ikv.1 mod _SimpleCache._cull_frequency self ≠ 0)
          (enumerate (_SimpleCache._cache self))).*2.
Proof.
  intros Hwf. unfold without, enumerate. cbn [_SimpleCache._cache].
  rewrite (filter_by_position
             (fun kv : string * pyval => kv.1 ∉ _SimpleCache.doomed self)
             (fun i => Z.of_nat i mod _SimpleCache._cull_frequency self ≠ 0)
             (_SimpleCache._cache self) id); [done|].
  intros i [k v] Hi. simpl. by rewrite (doomed_at_position self i k v).
Qed.

(** Counting the kept positions. *)
Lemma ceil_div_succ n a :
  0 <= n -> 0 < a ->
  (n + 1 + a - 1) / a = (n + a - 1) / a + (if decide (n mod a = 0) then 1 else 0).
Proof.
  intros Hn Ha.
  pose proof (Z.div_mod n a ltac:(lia)) as Hdm.
  pose proof (Z.mod_pos_bound n a Ha) as Hr.
  replace (n + 1 + a - 1) with (n + a) by lia.
  destruct (decide (n mod a = 0)) as [H0|H0].
  - rewrite H0 in Hdm.
    rewrite <- (Z.div_unique (n + a) a (n / a + 1) 0) by lia.
    rewrite <- (Z.div_unique (n + a - 1) a (n / a) (a - 1)) by lia. lia.
  - rewrite <- (Z.div_unique (n + a) a (n / a + 1) (n mod a)) by lia.
    rewrite <- (Z.div_unique (n + a - 1) a (n / a + 1) (n mod a - 1)) by lia.
    lia.
Qed.

Lemma mod_abs_zero i f : f ≠ 0 -> i mod f = 0 <-> i mod Z.abs f = 0.
Proof.
  intros Hf. rewrite !Z.mod_divide by lia. by rewrite Z.divide_abs_l.
Qed.

Lemma length_kept {A} (f : Z) (l : list A) :
  f ≠ 0 ->
  Z.of_nat (length (filter (fun ix : nat * A => Z.of_nat ix.1 mod f ≠ 0)
                           (enumerate l)))
  = Z.of_nat (length l) - (Z.of_nat (length l) + Z.abs f - 1) / Z.abs f.
Proof.
  intros Hf. unfold enumerate. induction l as [|x l IH] using rev_ind.
  - simpl. rewrite Z.div_small by lia. done.
  - rewrite imap_app, filter_app, !length_app. simpl.
    rewrite Nat.add_0_r, !Nat2Z.inj_add, IH. simpl (Z.of_nat 1).
    rewrite ceil_div_succ by lia.
    rewrite filter_cons, filter_nil. simpl.
    destruct (decide (Z.of_nat (length l) mod f ≠ 0)) as [Hm|Hm];
      destruct (decide (Z.of_nat (length l) mod Z.abs f = 0)) as [Ha|Ha];
      rewrite <- (mod_abs_zero _ f) in Ha by done; simpl; lia.
Qed.

(** C5: when [cull_frequency] is 0 the cull pass empties both maps, so a
    [set] on a backend that has reached [max_entries] (five entries with
    [max_entries] 5, say) leaves exactly the entry it writes in the value
    map, whatever its timeout, and, when the timeout can be converted to
    a double, returns with exactly the key it writes in the expiration
    map; when
    [cull_frequency] is not 0 the pass removes from both maps the entries
    whose position in the iteration order of [_cache] is a multiple of
    [cull_frequency], keeps every other entry as it was and in its order,
    and so removes the share ceil(n / |cull_frequency|) of n entries. *)
Theorem cull_pass self :
  (_SimpleCache._cull_frequency self = 0 ->
   (exists self',
      _SimpleCache._cull self = Ok self' /\
      _SimpleCache._cache self' = [] /\
      _SimpleCache._expire_info self' = ∅) /\
   (forall now key value timeout,
      _SimpleCache._max_entries self
        <= Z.of_nat (length (_SimpleCache._cache self)) ->
      exists self' outcome,
        _SimpleCache.set_in_place self now key value timeout
          = (self', outcome) /\
        _SimpleCache._cache self' = [(key, value)] /\
        (Py.float_overflows (effective_timeout self timeout) = false ->
         _SimpleCache.set self now key value timeout = Ok self' /\
         dom (_SimpleCache._expire_info self') = {[ key ]}))) /\
  (_SimpleCache._cull_frequency self ≠ 0 ->
   ODict.wf (_SimpleCache._cache self) ->
   exists self',
     _SimpleCache._cull self = Ok self' /\
     (forall (i : nat) k v,
        _SimpleCache._cache self !! i = Some (k, v) ->
        (Z.of_nat i mod _SimpleCache._cull_frequency self = 0 ->
         ODict.lookup (_SimpleCache._cache self') k = None /\
         _SimpleCache._expire_info self' !! k = None) /\
        (Z.of_nat i mod _SimpleCache._cull_frequency self ≠ 0 ->
         ODict.lookup (_SimpleCache._cache self') k = Some v /\
         _SimpleCache._expire_info self' !! k
           = _SimpleCache._expire_info self !! k)) /\
     (forall k,
        k ∉ ODict.keys (_SimpleCache._cache self) ->
        ODict.lookup (_SimpleCache._cache self') k = None /\
        _SimpleCache._expire_info self' !! k
          = _SimpleCache._expire_info self !! k) /\
     _SimpleCache._cache self' =
       (filter (fun ikv =>
                  Z.of_nat ikv.1 mod _SimpleCache._cull_frequency self ≠ 0)
               (enumerate (_SimpleCache._cache self))).*2 /\
     Z.of_nat (length (_SimpleCache._cache self')) =
       Z.of_nat (length (_SimpleCache._cache self))
       - (Z.of_nat (length (_SimpleCache._cache self))
          + Z.abs (_SimpleCache._cull_frequency self) - 1)
         / Z.abs (_SimpleCache._cull_frequency self)).
Proof.
  split.
  - intros Hf. split.
    + exists (flushed self). rewrite _cull_eq, Hf. done.
    + intros now key value timeout Hfull.
      assert (culled self = flushed self) as Hculled.
      { unfold culled. rewrite Hf.
        by replace (Z.of_nat (length (_SimpleCache._cache self))
                    >=? _SimpleCache._max_entries self) with true
          by (symmetry; apply Z.geb_le; lia). }
      unfold _SimpleCache.set. rewrite set_in_place_eq, Hculled.
      destruct (float_add_int_cases now (effective_timeout self timeout))
        as [[Hfits ->]|[Hover ->]]; eexists _, _;
        (split; [reflexivity|]); (split; [reflexivity|]).
      * intros _. split; [done|]. simpl.
        by rewrite dom_insert_L, dom_empty_L, union_empty_r_L.
      * congruence.
  - intros Hf Hwf. exists (without self (_SimpleCache.doomed self)).
    rewrite _cull_eq. apply Z.eqb_neq in Hf as Hf'. rewrite Hf'.
    split; [done|]. repeat split.
    + rewrite lookup_cache_without.
      by rewrite decide_True by (by eapply doomed_at_position).
    + rewrite lookup_expire_without.
      by rewrite decide_True by (by eapply doomed_at_position).
    + rewrite lookup_cache_without.
      rewrite decide_False by (by erewrite doomed_at_position).
      by eapply lookup_at_position.
    + rewrite lookup_expire_without.
      by rewrite decide_False by (by erewrite doomed_at_position).
    + rewrite lookup_cache_without.
      rewrite decide_False by (by intros ?%doomed_is_stored).
      by apply lookup_None.
    + rewrite lookup_expire_without.
      by rewrite decide_False by (by intros ?%doomed_is_stored).
    + by apply kept_by_position.
    + rewrite kept_by_position by done.
      rewrite length_fmap. by apply length_kept.
Qed.

(** A backend holding five entries, with [max_entries] 5. *)
Definition five_entries (cull_frequency : Z) : _SimpleCache.t :=
  _SimpleCache.Build 300
    [("a", PyInt 1); ("b", PyInt 2); ("c", PyInt 3); ("d", PyInt 4);
     ("e", PyInt 5)]
    {[ "a" := 400; "b" := 400; "c" := 400; "d" := 400; "e" := 400 ]}
    5 cull_frequency.

Lemma cull_pass_witness :
  (exists self',
     _SimpleCache.set (five_entries 0) 100 "f" (PyInt 6) None = Ok self' /\
     _SimpleCache._cache self' = [("f", PyInt 6)] /\
     dom (_SimpleCache._expire_info self') = {[ "f" ]}) /\
  (exists self',
     _SimpleCache.set_in_place (five_entries 0) 100 "f" (PyInt 6)
       (Some (- 10 ^ 309)) = (self', Raise OverflowError) /\
     _SimpleCache._cache self' = [("f", PyInt 6)]) /\
  (exists self',
     _SimpleCache._cull (five_entries 2) = Ok self' /\
     _SimpleCache._cache self' = [("b", PyInt 2); ("d", PyInt 4)] /\
     Z.of_nat (length (_SimpleCache._cache self')) = 5 - (5 + 2 - 1) / 2).
Proof.
  split; [|split].
  - destruct (cull_pass (five_entries 0)) as [Hflush _].
    destruct (Hflush eq_refl) as [_ Hset].
    destruct (Hset 100 "f" (PyInt 6) None)
      as (self' & outcome & _ & Hc & Hfits); [simpl; lia|].
    destruct Hfits as [Hret Hdom]; [reflexivity|].
    exists self'. split; [exact Hret|]. split; [exact Hc|exact Hdom].
  - destruct (cull_pass (five_entries 0)) as [Hflush _].
    destruct (Hflush eq_refl) as [_ Hset].
    destruct (Hset 100 "f" (PyInt 6) (Some (- 10 ^ 309)))
      as (self' & outcome & Hin & Hc & _); [simpl; lia|].
    exists self'. split; [|exact Hc].
    rewrite Hin. f_equal.
    assert (_SimpleCache.set_in_place (five_entries 0) 100 "f" (PyInt 6)
              (Some (- 10 ^ 309))
            = (valued (flushed (five_entries 0)) "f" (PyInt 6),
               Raise OverflowError)) as Hrun by (vm_compute; reflexivity).
    rewrite Hrun in Hin. by injection Hin as _ <-.
  - destruct (cull_pass (five_entries 2)) as [_ Hcull].
    destruct Hcull as (self' & Hself' & _ & _ & Hkept & Hlen).
    + simpl. lia.
    + apply (bool_decide_unpack _). vm_compute. exact I.
    + exists self'. split; [exact Hself'|]. split; [exact Hkept|exact Hlen].
Defined.

(** ** Reading many keys *)










(** ** Descriptors *)

(** The character [c] occurs in [s]. *)
Definition occurs (c : ascii) (s : string) : Prop :=
  exists a b, s = a +:+ String c b.

(** [a] is the text of [s] before the first [c], and [b] the text after it. *)
Definition splits_at_first (c : ascii) (s a b : string) : Prop :=
  s = a +:+ String c b /\ ~ occurs c a.

Definition begins_with (p s : string) : Prop := exists t, s = p +:+ t.

Lemma occurs_cons c x s : occurs c (String x s) <-> x = c \/ occurs c s.
Proof.
  split.
  - intros (a & b & H). destruct a as [|y a]; simpl in H.
    + injection H as -> ->. by left.
    + injection H as -> ->. right. by exists a, b.
  - intros [->|(a & b & ->)].
    + by exists "", s.
    + by exists (String x a), b.
Qed.

Lemma not_occurs_empty c : ~ occurs c "".
Proof. intros (a & b & H). by destruct a. Qed.

Lemma find_ge s c : -1 <= Py.find s c.
Proof.
  induction s as [|x s IH]; simpl; [lia|].
  destruct (Ascii.eqb x c); [lia|].
  destruct (Z.eqb_spec (Py.find s c) (-1)); lia.
Qed.

Lemma find_absent s c : Py.find s c = -1 <-> ~ occurs c s.
Proof.
  induction s as [|x s IH]; simpl.
  - split; [intros _; apply not_occurs_empty|done].
  - rewrite occurs_cons. destruct (Ascii.eqb_spec x c) as [->|Hne].
    + split; [done|]. intros H. destruct H. by left.
    + pose proof (find_ge s c) as Hge.
      destruct (Z.eqb_spec (Py.find s c) (-1)) as [Heq|Hneq].
      * split; [|done]. intros _ [?|?]; [done|]. by apply IH.
      * split; [lia|]. intros H. exfalso. apply Hneq, IH. tauto.
Qed.

Lemma split1_here s c : Py.split1 (String c s) c = [""; s].
Proof. unfold Py.split1. simpl. rewrite Ascii.eqb_refl. reflexivity. Qed.

Lemma split1_later x s c a b :
  x ≠ c -> Py.find s c ≠ -1 -> Py.split1 s c = [a; b] ->
  Py.split1 (String x s) c = [String x a; b].
Proof.
  intros Hne Hfind. unfold Py.split1. cbn [Py.find].
  pose proof (find_ge s c) as Hge.
  apply Ascii.eqb_neq in Hne. rewrite Hne.
  apply Z.eqb_neq in Hfind as Hfind'. rewrite Hfind'.
  assert ((1 + Py.find s c =? -1) = false) as -> by (apply Z.eqb_neq; lia).
  replace (Z.to_nat (1 + Py.find s c)) with (S (Z.to_nat (Py.find s c)))
    by lia.
  replace (Z.to_nat (1 + Py.find s c + 1))
    with (S (Z.to_nat (Py.find s c + 1))) by lia.
  simpl. by intros [= -> ->].
Qed.

Lemma find_cons_ne x s c :
  x ≠ c -> Py.find (String x s) c ≠ -1 -> Py.find s c ≠ -1.
Proof.
  intros Hne. simpl. apply Ascii.eqb_neq in Hne. rewrite Hne.
  by destruct (Z.eqb_spec (Py.find s c) (-1)).
Qed.

Lemma split1_present s c :
  Py.find s c ≠ -1 ->
  exists a b, Py.split1 s c = [a; b] /\ splits_at_first c s a b.
Proof.
  unfold splits_at_first. induction s as [|x s IH]; [done|].
  destruct (decide (x = c)) as [->|Hne].
  - intros _. exists "", s. rewrite split1_here.
    split; [done|]. split; [done|]. apply not_occurs_empty.
  - intros Hfind%find_cons_ne; [|done].
    destruct (IH Hfind) as (a & b & Hsplit & -> & Ha).
    exists (String x a), b. rewrite (split1_later _ _ _ a b) by done.
    split; [done|]. split; [done|]. rewrite occurs_cons. tauto.
Qed.

Lemma splits_at_first_unique c s a b a' b' :
  splits_at_first c s a b -> splits_at_first c s a' b' -> a = a' /\ b = b'.
Proof.
  intros [-> Ha] [H Ha']. revert a' H Ha Ha'.
  induction a as [|x a IH]; intros [|y a'] H Ha Ha'; simpl in H.
  - by injection H as ->.
  - injection H as <- _. destruct Ha'. apply occurs_cons. by left.
  - injection H as -> _. destruct Ha. apply occurs_cons. by left.
  - injection H as -> H. rewrite occurs_cons in Ha, Ha'.
    destruct (IH a' H) as [-> ->]; tauto.
Qed.

Lemma startswith_slashes rest :
  Py.startswith rest "//" = true <-> begins_with "//" rest.
Proof.
  unfold begins_with. split.
  - destruct rest as [|x [|y t]]; cbn [Py.startswith].
    + done.
    + by rewrite andb_false_r.
    + destruct (Ascii.eqb_spec "/" x) as [<-|]; [|done].
      destruct (Ascii.eqb_spec "/" y) as [<-|]; [|done]. by exists t.
  - by intros (t & ->).
Qed.

Lemma get_cache_in_no_colon {B}
    (BACKENDS : gmap string (option (constructor B))) uri :
  ~ occurs ":" uri ->
  get_cache_in BACKENDS uri
    = Raise (InvalidCacheBackendError MustStartWithScheme).
Proof.
  intros H%find_absent. unfold get_cache_in. by rewrite H.
Qed.

(** [get_cache] once the descriptor is split at its first colon. *)
Lemma get_cache_in_split {B}
    (BACKENDS : gmap string (option (constructor B))) uri scheme rest :
  splits_at_first ":" uri scheme rest ->
  get_cache_in BACKENDS uri =
  if negb (Py.startswith rest "//") then
    Raise (InvalidCacheBackendError MustStartWithScheme)
  else if negb (bool_decide (is_Some (BACKENDS !! scheme))) then
    Raise (InvalidCacheBackendError (NotAValidBackend scheme))
  else
    let host := Py.slice_from rest 2 in
    let qpos := Py.find rest "?"%char in
    let '(params, host) :=
      if negb (qpos =? -1) then
        (dict_of_pairs
           (cgi.parse_qsl (Py.slice_from rest (Z.to_nat (qpos + 1)))),
         Py.slice_to rest (Z.to_nat qpos))
      else (∅, host) in
    let host := if Py.endswith host "/"%char
                then Py.drop_last host else host in
    match BACKENDS !! scheme with
    | Some (Some class) => class host params
    | Some None => Raise TypeError
    | None => Raise (KeyError scheme)
    end.
Proof.
  intros Hsplit.
  assert (Py.find uri ":" ≠ -1) as Hfind.
  { rewrite find_absent. intros Hno. apply Hno.
    destruct Hsplit as [-> _]. by exists scheme, rest. }
  destruct (split1_present uri ":" Hfind) as (a & b & Hab & Hsplit').
  destruct (splits_at_first_unique _ _ _ _ _ _ Hsplit Hsplit') as [<- <-].
  unfold get_cache_in. apply Z.eqb_neq in Hfind. by rewrite Hfind, Hab.
Qed.

(** The schemes the module registers. *)
Definition registered (scheme : string) : Prop :=
  scheme = "memcached" \/ scheme = "simple".

Section Registry.
Context {Client : Type}.
Variable memcache : option (list string -> Client).

Lemma registered_lookup scheme :
  is_Some (_BACKENDS memcache !! scheme) <-> registered scheme.
Proof.
  unfold _BACKENDS, registered.
  rewrite lookup_insert_is_Some, lookup_singleton_is_Some.
  split; [intros [<-|[_ <-]]; tauto|].
  intros [->| ->]; [by left|]. by right.
Qed.

(** What [get_cache] does, by the shape of the descriptor. *)
Lemma get_cache_cases uri :
  (~ occurs ":" uri /\
   get_cache memcache uri
     = Raise (InvalidCacheBackendError MustStartWithScheme)) \/
  (exists scheme rest,
     splits_at_first ":" uri scheme rest /\
     ((~ begins_with "//" rest /\
       get_cache memcache uri
         = Raise (InvalidCacheBackendError MustStartWithScheme)) \/
      (begins_with "//" rest /\ ~ registered scheme /\
       get_cache memcache uri
         = Raise (InvalidCacheBackendError (NotAValidBackend scheme))) \/
      (begins_with "//" rest /\ scheme = "simple" /\
       exists c, get_cache memcache uri = Ok (SimpleCache c)) \/
      (begins_with "//" rest /\ scheme = "memcached" /\
       match memcache with
       | Some _ => exists c, get_cache memcache uri = Ok (MemcachedCache c)
       | None => get_cache memcache uri = Raise TypeError
       end))).
Proof.
  destruct (decide (Py.find uri ":" = -1)) as [Hno|Hfind].
  { left. apply find_absent in Hno. split; [done|].
    by apply get_cache_in_no_colon. }
  right. destruct (split1_present uri ":" Hfind) as (scheme & rest & _ & Hs).
  exists scheme, rest. split; [done|].
  unfold get_cache. rewrite (get_cache_in_split _ uri scheme rest Hs).
  destruct (Py.startswith rest "//") eqn:Hstart; cbn [negb].
  2:{ left. split; [|done]. rewrite <- startswith_slashes. congruence. }
  apply startswith_slashes in Hstart. right.
  destruct (decide (is_Some (_BACKENDS memcache !! scheme))) as [Hreg|Hreg].
  2:{ left. rewrite bool_decide_eq_false_2 by done. cbn [negb].
      by rewrite registered_lookup in Hreg. }
  right. rewrite bool_decide_eq_true_2 by done. cbn [negb].
  apply registered_lookup in Hreg as [-> | ->].
  - right. split; [done|]. split; [done|].
    change (_BACKENDS memcache !! "memcached")
      with (Some (_MemcachedCache memcache)).
    destruct (negb (Py.find rest "?" =? -1)); cbv beta iota;
      unfold _MemcachedCache;
      (destruct memcache as [memcache_Client|]; [|done]);
      unfold _MemcachedCache.__init__;
      rewrite _Cache__init___eq; simpl; eauto.
  - left. split; [done|]. split; [done|].
    change (_BACKENDS memcache !! "simple")
      with (Some (_SimpleCache (Client := Client))).
    destruct (negb (Py.find rest "?" =? -1)); cbv beta iota;
      unfold _SimpleCache;
      rewrite __init___eq; simpl; eauto.
Qed.
End Registry.

(** A descriptor is malformed when it has no colon, or when the text
    after its first colon does not begin with two slashes, or when the
    text before that colon is not a registered scheme. *)
Definition malformed (uri : string) : Prop :=
  ~ occurs ":" uri \/
  exists scheme rest,
    splits_at_first ":" uri scheme rest /\
    (~ begins_with "//" rest \/ ~ registered scheme).

Definition raises_configuration_error {A} (r : result A) : Prop :=
  exists msg, r = Raise (InvalidCacheBackendError msg).

(** A claim as the specification words it: [get_cache] raises the
    configuration error exactly on the malformed descriptors, and returns
    a backend on all others. *)
Definition raises_exactly_when_malformed {Client}
    (memcache : option (list string -> Client)) (uri : string) : Prop :=
  (raises_configuration_error (get_cache memcache uri) <-> malformed uri) /\
  (~ malformed uri -> exists backend, get_cache memcache uri = Ok backend).

Lemma malformed_raises {Client} (memcache : option (list string -> Client))
    uri :
  raises_configuration_error (get_cache memcache uri) <-> malformed uri.
Proof.
  unfold raises_configuration_error, malformed.
  destruct (get_cache_cases memcache uri)
    as [[Hno ->]|(scheme & rest & Hs &
          [[Hb ->]|[(Hb & Hr & ->)|[(Hb & -> & c & ->)|(Hb & -> & Hm)]]])].
  - split; eauto.
  - split; [|by eauto]. intros _. right. exists scheme, rest. tauto.
  - split; [|by eauto]. intros _. right. exists scheme, rest. tauto.
  - split; [by intros [? ?]|].
    intros [Hno|(scheme' & rest' & Hs' & Hbad)].
    + destruct Hno. destruct Hs as [-> _]. by eexists _, _.
    + destruct (splits_at_first_unique _ _ _ _ _ _ Hs Hs') as [<- <-].
      destruct Hbad as [?|Hr]; [done|]. destruct Hr. by right.
  - split.
    + destruct memcache as [memcache_Client|];
        [destruct Hm as [c ->]|rewrite Hm]; by intros [? ?].
    + intros [Hno|(scheme' & rest' & Hs' & Hbad)].
      * destruct Hno. destruct Hs as [-> _]. by eexists _, _.
      * destruct (splits_at_first_unique _ _ _ _ _ _ Hs Hs') as [<- <-].
        destruct Hbad as [?|Hr]; [done|]. destruct Hr. by left.
Qed.

(** C7, as stated, fails: where [import memcache] failed the registry
    maps "memcached" to [None], and a well-formed memcached descriptor
    makes [get_cache] call it: a [TypeError], not a backend. *)
Lemma get_cache_memcached_unavailable :
  ~ raises_exactly_when_malformed (Client := unit) None
      "memcached://127.0.0.1:11211/".
Proof.
  intros [_ Hok]. destruct Hok as [backend Hbackend].
  - intros Hmal.
    apply (malformed_raises (Client := unit) None) in Hmal as [msg Hmsg].
    vm_compute in Hmsg. discriminate Hmsg.
  - vm_compute in Hbackend. discriminate Hbackend.
Qed.

(** C7, amended: [get_cache] raises [InvalidCacheBackendError] exactly
    when the descriptor has no colon, or the text after its first colon
    does not begin with "//", or the scheme is not registered; on every
    other descriptor it returns a backend, provided the scheme is "simple"
    or the [memcache] module was imported. *)
Theorem get_cache_errors {Client} (memcache : option (list string -> Client))
    uri :
  (raises_configuration_error (get_cache memcache uri) <-> malformed uri) /\
  (~ malformed uri ->
   is_Some memcache \/ (exists rest, splits_at_first ":" uri "simple" rest) ->
   exists backend, get_cache memcache uri = Ok backend).
Proof.
  split; [apply malformed_raises|].
  intros Hwf Hclass.
  destruct (get_cache_cases memcache uri)
    as [[Hno _]|(scheme & rest & Hs &
          [[Hb _]|[(Hb & Hr & _)|[(Hb & -> & c & ->)|(Hb & -> & Hm)]]])].
  - destruct Hwf. by left.
  - destruct Hwf. right. exists scheme, rest. tauto.
  - destruct Hwf. right. exists scheme, rest. tauto.
  - eauto.
  - destruct memcache as [memcache_Client|].
    + destruct Hm as [c ->]. eauto.
    + destruct Hclass as [[? [=]]|[rest' Hs']].
      by destruct (splits_at_first_unique _ _ _ _ _ _ Hs Hs') as [[=] _].
Qed.

Lemma get_cache_errors_witness :
  raises_configuration_error (get_cache (Client := unit) None "badformat") /\
  raises_configuration_error (get_cache (Client := unit) None "nozscheme://x") /\
  exists backend, get_cache (Client := unit) None "simple:///" = Ok backend.
Proof.
  split; [|split].
  - apply (get_cache_errors (Client := unit) None "badformat").
    left. apply find_absent. reflexivity.
  - apply (get_cache_errors (Client := unit) None "nozscheme://x").
    right. exists "nozscheme", "//x". split.
    + split; [reflexivity|]. apply find_absent. reflexivity.
    + right. by intros [[=]|[=]].
  - assert (splits_at_first ":" "simple:///" "simple" "///") as Hs.
    { split; [reflexivity|]. apply find_absent. reflexivity. }
    apply (get_cache_errors (Client := unit) None "simple:///").
    + intros [Hno|(scheme & rest & Hs' & Hbad)].
      * apply Hno. by exists "simple", "///".
      * destruct (splits_at_first_unique _ _ _ _ _ _ Hs Hs') as [<- <-].
        destruct Hbad as [Hb|Hr]; [apply Hb; by exists "/"|apply Hr; by right].
    + right. by exists "///".
Defined.

(** ** The constructor arguments [get_cache] passes *)

(** C1: for the descriptor "simple:///?max_entries=5" the class registered
    under "simple" is called with the parameters [{max_entries: "5"}]
    and with the location "//", not the empty string: with a query
    string the location is cut from the start of the text after the
    colon, its two slashes included.  Without a query string the slashes
    are skipped and "simple:///" gives the location "". *)
Theorem get_cache_query_location {B}
    (BACKENDS : gmap string (option (constructor B))) (class : constructor B) :
  BACKENDS !! "simple" = Some (Some class) ->
  get_cache_in BACKENDS "simple:///?max_entries=5"
    = class "//" {[ "max_entries" := PyStr "5" ]} /\
  get_cache_in BACKENDS "simple:///" = class "" ∅.
Proof.
  intros H. split.
  - rewrite (get_cache_in_split _ _ "simple" "///?max_entries=5")
      by (split; [reflexivity|apply find_absent; reflexivity]).
    unfold constructor in *.
    revert H. generalize (BACKENDS !! "simple"). intros o ->.
    vm_compute. reflexivity.
  - rewrite (get_cache_in_split _ _ "simple" "///")
      by (split; [reflexivity|apply find_absent; reflexivity]).
    unfold constructor in *.
    revert H. generalize (BACKENDS !! "simple"). intros o ->.
    vm_compute. reflexivity.
Qed.

(** A backend class that only records the arguments it is called with. *)
Definition recording : constructor (string * gmap string pyval) :=
  fun host params => Ok (host, params).

Lemma get_cache_query_location_witness :
  get_cache_in {[ "simple" := Some recording ]} "simple:///?max_entries=5"
    = Ok ("//", {[ "max_entries" := PyStr "5" ]}) /\
  get_cache_in {[ "simple" := Some recording ]} "simple:///" = Ok ("", ∅).
Proof.
  apply (get_cache_query_location {[ "simple" := Some recording ]} recording).
  reflexivity.
Defined.

(** ** Parameter coercion *)

(** The setting [x] obtained from the parameter [name]: the parameter's
    integer when [int()] accepts it, the default [dflt] when [int()]
    raises on it or the parameter is missing. *)
Definition coerced (params : gmap string pyval) (name : string) (dflt : Z)
    (x : Z) : Prop :=
  (forall v n, params !! name = Some v -> Py.int v = Ok n -> x = n) /\
  (forall v e, params !! name = Some v -> Py.int v = Raise e -> x = dflt) /\
  (params !! name = None -> x = dflt).

Lemma setting_coerced params name dflt :
  coerced params name dflt (setting params name dflt).
Proof.
  unfold coerced, setting. repeat split.
  - by intros v n -> ->.
  - by intros v e -> ->.
  - by intros ->.
Qed.

(** C8: constructing the in-memory backend never raises, whatever the
    parameter mapping holds: [timeout], [max_entries] and [cull_frequency]
    each take the integer of their parameter when [int()] accepts it and
    the default (300, 300, 3) when it does not or the parameter is
    missing; the base constructor alone does the same for [timeout]. *)
Theorem construction_never_raises host params :
  exists self,
    _SimpleCache.__init__ host params = Ok self /\
    _Cache.__init__ params = Ok (_SimpleCache.default_timeout self) /\
    coerced params "timeout" 300 (_SimpleCache.default_timeout self) /\
    coerced params "max_entries" 300 (_SimpleCache._max_entries self) /\
    coerced params "cull_frequency" 3 (_SimpleCache._cull_frequency self) /\
    _SimpleCache._cache self = [] /\
    _SimpleCache._expire_info self = ∅.
Proof.
  eexists. rewrite __init___eq, _Cache__init___eq.
  split; [reflexivity|]. simpl.
  split; [reflexivity|]. auto using setting_coerced.
Qed.

Lemma construction_never_raises_witness :
  exists self,
    _SimpleCache.__init__ ""
      {[ "timeout" := PyStr "soon"; "max_entries" := PyStr "5" ]} = Ok self /\
    _SimpleCache.default_timeout self = 300 /\
    _SimpleCache._max_entries self = 5 /\
    _SimpleCache._cull_frequency self = 3.
Proof.
  destruct (construction_never_raises ""
              {[ "timeout" := PyStr "soon"; "max_entries" := PyStr "5" ]})
    as (self & Hself & _ & (_ & Ht & _) & (Hm & _) & (_ & _ & Hc) & _).
  exists self. split; [exact Hself|]. split; [|split].
  - apply (Ht (PyStr "soon") ValueError); reflexivity.
  - apply (Hm (PyStr "5") 5); reflexivity.
  - apply Hc. reflexivity.
Defined.

(** * Further properties of the in-memory backend *)

Lemma without_nil self : without self [] = self.
Proof.
  unfold without. destruct self as [dt c e me cf]. simpl. f_equal.
  - induction c as [|kv c IHc]; [done|].
    rewrite filter_cons_True; [by rewrite IHc|]. apply not_elem_of_nil.
  - apply map_filter_id. intros ? ? _. apply not_elem_of_nil.
Qed.

Lemma without_ext self ks1 ks2 :
  (forall k, k ∈ ks1 <-> k ∈ ks2) -> without self ks1 = without self ks2.
Proof.
  intros H. unfold without. f_equal.
  - apply list_filter_iff. intros [k v]. simpl. by rewrite H.
  - apply map_filter_ext. intros k v _. simpl. by rewrite H.
Qed.

Lemma length_without self ks :
  (length (_SimpleCache._cache (without self ks))
   <= length (_SimpleCache._cache self))%nat.
Proof. unfold without. cbn [_SimpleCache._cache]. apply length_filter. Qed.

Lemma length_setitem_old {V} (d : ODict.t V) k v :
  is_Some (ODict.lookup d k) -> length (ODict.setitem d k v) = length d.
Proof.
  induction d as [|[k' v'] d IH]; simpl; [by intros [? ?]|].
  destruct (decide (k' = k)); [done|]. intros H. simpl. by rewrite IH.
Qed.

Lemma get_absent self now key dflt :
  ODict.lookup (_SimpleCache._cache self) key = None ->
  _SimpleCache._expire_info self !! key = None ->
  _SimpleCache.get self now key dflt = Ok (dflt, self).
Proof.
  intros Hc He. rewrite get_untimed by done. unfold ODict.get. by rewrite Hc.
Qed.

(** X1: [delete] never raises and is effective: afterwards the key is in
    neither map, [has_key] is [False], [get] returns the default without
    changing anything, a second [delete] changes nothing, and the entries
    of all other keys are as before. *)
Theorem delete_effective self key :
  exists self',
    _SimpleCache.delete self key = Ok self' /\
    _SimpleCache.has_key self' key = false /\
    (forall now dflt, _SimpleCache.get self' now key dflt = Ok (dflt, self')) /\
    _SimpleCache.delete self' key = Ok self' /\
    (forall k, k ≠ key ->
       ODict.lookup (_SimpleCache._cache self') k
         = ODict.lookup (_SimpleCache._cache self) k /\
       _SimpleCache._expire_info self' !! k
         = _SimpleCache._expire_info self !! k).
Proof.
  exists (without self [key]). rewrite !delete_eq.
  assert (ODict.lookup (_SimpleCache._cache (without self [key])) key = None)
    as Hc.
  { rewrite lookup_cache_without.
    by rewrite decide_True by (by apply list_elem_of_singleton). }
  assert (_SimpleCache._expire_info (without self [key]) !! key = None) as He.
  { rewrite lookup_expire_without.
    by rewrite decide_True by (by apply list_elem_of_singleton). }
  split; [done|]. split; [|split; [|split]].
  - unfold _SimpleCache.has_key, ODict.has_key. by rewrite Hc.
  - intros now dflt. by apply get_absent.
  - f_equal. rewrite without_without. apply without_ext. intros k.
    rewrite elem_of_app. tauto.
  - intros k Hne. rewrite lookup_cache_without, lookup_expire_without.
    by rewrite !decide_False by (by rewrite list_elem_of_singleton).
Qed.

(** What a call of [set] leaves, however it ends: the value written into
    what the cull test left, and the expiration times of the other keys
    as the cull test left them. *)
Lemma set_in_place_leaves self now key value timeout :
  exists self' outcome,
    _SimpleCache.set_in_place self now key value timeout = (self', outcome) /\
    _SimpleCache._cache self'
      = ODict.setitem (_SimpleCache._cache (culled self)) key value /\
    (forall k, k ≠ key ->
       _SimpleCache._expire_info self' !! k
         = _SimpleCache._expire_info (culled self) !! k) /\
    (Py.float_overflows (effective_timeout self timeout) = false ->
     _SimpleCache.set self now key value timeout = Ok self') /\
    (Py.float_overflows (effective_timeout self timeout) = true ->
     _SimpleCache.set self now key value timeout = Raise OverflowError).
Proof.
  unfold _SimpleCache.set. rewrite set_in_place_eq.
  destruct (float_add_int_cases now (effective_timeout self timeout))
    as [[Hfits ->]|[Hover ->]]; eexists _, _;
    (split; [reflexivity|]); (split; [reflexivity|]);
    (split; [|split; intros; (done || congruence)]).
  - intros k Hne. unfold stored. simpl. by rewrite lookup_insert_ne.
  - done.
Qed.

(** X2: the life of an entry.  A [set(key, value, timeout)] at time [now]
    whose timeout can be converted to a double returns, in any state of
    the backend and whether or not the set culled, and stores as
    expiration time the float sum of [now] and the timeout (the rounded
    sum, an infinity when it overflows), which is not earlier than [now]
    when the timeout is not negative; a [get(key)] at a time up to the
    expiration time returns [value] and changes nothing; a [get(key)] at
    any later time returns the default and takes the entry out of both
    maps. *)
Theorem entry_lifetime self now key value timeout :
  Py.float_overflows (effective_timeout self timeout) = false ->
  exists self' exp,
    Py.float_add_int now (effective_timeout self timeout) = Ok exp /\
    _SimpleCache.set self now key value timeout = Ok self' /\
    _SimpleCache._expire_info self' !! key = Some exp /\
    (Py.is_float now -> 0 <= effective_timeout self timeout -> now <= exp) /\
    forall later dflt,
      (later <= exp ->
       _SimpleCache.get self' later key dflt = Ok (value, self')) /\
      (exp < later ->
       exists self'',
         _SimpleCache.get self' later key dflt = Ok (dflt, self'') /\
         _SimpleCache.has_key self'' key = false /\
         _SimpleCache._expire_info self'' !! key = None).
Proof.
  intros Hfits. rewrite set_eq by done.
  pose proof (float_add_int_fits now _ Hfits) as Hexp.
  set (exp := Py.float_add now _) in *.
  exists (stored (culled self) key value exp), exp.
  split; [done|]. split; [done|].
  assert (ODict.lookup
            (_SimpleCache._cache (stored (culled self) key value exp)) key
          = Some value) as Hc by apply lookup_setitem_eq.
  assert (_SimpleCache._expire_info (stored (culled self) key value exp) !! key
          = Some exp) as He by apply lookup_insert_eq.
  split; [done|]. split.
  { intros Hnow Htimeout. by eapply float_add_int_ge. }
  intros later dflt. split.
  - intros Hle. rewrite (get_unexpired _ _ _ _ exp) by done.
    unfold ODict.get. by rewrite Hc.
  - intros Hlt. eexists. rewrite (get_expired _ _ _ _ value exp) by done.
    split; [reflexivity|].
    unfold _SimpleCache.has_key, ODict.has_key.
    rewrite lookup_cache_without, lookup_expire_without.
    by rewrite !decide_True by (by apply list_elem_of_singleton).
Qed.

Lemma entry_lifetime_witness :
  exists self',
    _SimpleCache.set fresh 100 "k" (PyStr "v") (Some (2 ^ 53 + 1)) = Ok self' /\
    _SimpleCache._expire_info self' !! "k" = Some (2 ^ 53 + 100) /\
    _SimpleCache.get self' (2 ^ 53 + 100) "k" PyNone = Ok (PyStr "v", self').
Proof.
  destruct (entry_lifetime fresh 100 "k" (PyStr "v") (Some (2 ^ 53 + 1))
              eq_refl) as (self' & exp & Hexp & Hset & He & _ & Hlife).
  assert (Py.float_add_int 100 (2 ^ 53 + 1) = Ok (2 ^ 53 + 100)) as Hsum
    by (vm_compute; reflexivity).
  change (effective_timeout fresh (Some (2 ^ 53 + 1))) with (2 ^ 53 + 1)
    in Hexp.
  rewrite Hsum in Hexp. injection Hexp as <-.
  exists self'. split; [exact Hset|]. split; [exact He|].
  apply (proj1 (Hlife (2 ^ 53 + 100) PyNone)). lia.
Defined.

(** X3: below capacity [set] evicts nothing: however the call ends, the
    entries of all other keys are as before, and the entry count grows by
    one for a new key and stays for a key that is overwritten; and the
    call returns when its timeout can be converted to a double. *)
Theorem set_below_capacity self now key value timeout :
  Z.of_nat (length (_SimpleCache._cache self)) < _SimpleCache._max_entries self ->
  exists self' outcome,
    _SimpleCache.set_in_place self now key value timeout = (self', outcome) /\
    (Py.float_overflows (effective_timeout self timeout) = false ->
     _SimpleCache.set self now key value timeout = Ok self') /\
    (forall k, k ≠ key ->
       ODict.lookup (_SimpleCache._cache self') k
         = ODict.lookup (_SimpleCache._cache self) k /\
       _SimpleCache._expire_info self' !! k
         = _SimpleCache._expire_info self !! k) /\
    length (_SimpleCache._cache self') =
      if _SimpleCache.has_key self key
      then length (_SimpleCache._cache self)
      else S (length (_SimpleCache._cache self)).
Proof.
  intros Hroom.
  destruct (set_in_place_leaves self now key value timeout)
    as (self' & outcome & Hset & Hc & He & Hfits & _).
  assert (culled self = self) as Hculled.
  { unfold culled.
    by replace (Z.of_nat (length (_SimpleCache._cache self))
                >=? _SimpleCache._max_entries self) with false
      by (symmetry; rewrite Z.geb_leb; apply Z.leb_gt; lia). }
  rewrite Hculled in Hc, He.
  exists self', outcome. split; [done|]. split; [done|]. rewrite Hc. split.
  - intros k Hne. rewrite lookup_setitem_ne by done. split; [done|].
    by apply He.
  - unfold _SimpleCache.has_key, ODict.has_key.
    destruct (ODict.lookup (_SimpleCache._cache self) key) eqn:Hk.
    + by rewrite length_setitem_old by (by rewrite Hk).
    + by apply length_setitem_new.
Qed.

(** A backend with room: two entries, [max_entries] 5. *)
Definition two_entries : _SimpleCache.t :=
  _SimpleCache.Build 300 [("a", PyInt 1); ("b", PyInt 2)]
    {[ "a" := 400; "b" := 400 ]} 5 3.

Lemma set_below_capacity_witness :
  Z.of_nat (length (_SimpleCache._cache two_entries))
    < _SimpleCache._max_entries two_entries /\
  exists self',
    _SimpleCache.set two_entries 100 "b" PyNone None = Ok self' /\
    length (_SimpleCache._cache self') = 2%nat /\
    ODict.lookup (_SimpleCache._cache self') "a" = Some (PyInt 1).
Proof.
  split; [simpl; lia|].
  destruct (set_below_capacity two_entries 100 "b" PyNone None)
    as (self' & outcome & _ & Hset & Hframe & Hlen); [simpl; lia|].
  exists self'. split; [exact (Hset eq_refl)|]. split; [exact Hlen|].
  destruct (Hframe "a") as [Ha _]; [discriminate|].
  rewrite Ha. reflexivity.
Defined.

Lemma denied_key_reads_default self key now dflt :
  same_keys self ->
  _SimpleCache.has_key self key = false ->
  _SimpleCache.get self now key dflt = Ok (dflt, self).
Proof.
  unfold _SimpleCache.has_key, ODict.has_key. intros Hkeys Hno.
  destruct (ODict.lookup (_SimpleCache._cache self) key) eqn:Hc; [done|].
  apply get_absent; [done|]. apply eq_None_not_Some.
  rewrite <- (same_keys_lookup self key Hkeys), Hc. by intros [? ?].
Qed.

(** X4: [has_key] has no false negatives, and a key it denies reads as
    the default: when [get(key)] returns an object other than [None],
    [has_key(key)] is [True]; and on a backend whose maps hold the same
    keys, when [has_key(key)] is [False], [get(key, default)] returns the
    default and changes nothing. *)
Theorem has_key_covers_get self key :
  (forall now r self',
     _SimpleCache.get self now key PyNone = Ok (r, self') ->
     r ≠ PyNone -> _SimpleCache.has_key self key = true) /\
  (same_keys self ->
   _SimpleCache.has_key self key = false ->
   forall now dflt, _SimpleCache.get self now key dflt = Ok (dflt, self)).
Proof.
  unfold _SimpleCache.has_key, ODict.has_key. split.
  - intros now r self'. unfold _SimpleCache.get.
    destruct (_ <? now).
    + unfold ODict.delitem, ODict.has_key.
      destruct (ODict.lookup _ key); [done|]. by intros [=].
    + unfold ODict.get. destruct (ODict.lookup _ key); [done|].
      by intros [= <- _].
  - intros Hkeys Hno now dflt. by apply denied_key_reads_default.
Qed.

Lemma has_key_covers_get_witness :
  same_keys two_entries /\
  _SimpleCache.has_key two_entries "a" = true /\
  _SimpleCache.get two_entries 100 "z" (PyInt 0) = Ok (PyInt 0, two_entries).
Proof.
  assert (same_keys two_entries) as Hkeys.
  { apply (same_keys_stored (stored fresh "a" (PyInt 1) 400) "b" (PyInt 2) 400),
      same_keys_stored, (same_keys_flushed fresh). }
  split; [exact Hkeys|]. split.
  - apply (proj1 (has_key_covers_get two_entries "a") 100 (PyInt 1) two_entries);
      [reflexivity|discriminate].
  - apply (proj2 (has_key_covers_get two_entries "z") Hkeys); reflexivity.
Defined.

(** X5: a [set] on a backend that has reached [max_entries] always evicts
    the entry that is first in the iteration order of [_cache], whatever
    [cull_frequency] is and however the call ends, unless that is the key
    being written; and the call returns when its timeout can be converted
    to a double. *)
Theorem set_at_capacity_evicts_first self now key value timeout k0 v0 d :
  _SimpleCache._cache self = (k0, v0) :: d ->
  _SimpleCache._max_entries self
    <= Z.of_nat (length (_SimpleCache._cache self)) ->
  k0 ≠ key ->
  exists self' outcome,
    _SimpleCache.set_in_place self now key value timeout = (self', outcome) /\
    (Py.float_overflows (effective_timeout self timeout) = false ->
     _SimpleCache.set self now key value timeout = Ok self') /\
    _SimpleCache.has_key self' k0 = false /\
    _SimpleCache._expire_info self' !! k0 = None.
Proof.
  intros Hc Hfull Hne.
  destruct (set_in_place_leaves self now key value timeout)
    as (self' & outcome & Hset & Hcache & He & Hfits & _).
  exists self', outcome. split; [done|]. split; [done|].
  unfold _SimpleCache.has_key, ODict.has_key.
  rewrite Hcache, He by done. rewrite lookup_setitem_ne by done.
  unfold culled.
  replace (Z.of_nat (length (_SimpleCache._cache self))
           >=? _SimpleCache._max_entries self) with true
    by (symmetry; apply Z.geb_le; lia).
  destruct (_SimpleCache._cull_frequency self =? 0); [done|].
  rewrite lookup_cache_without, lookup_expire_without.
  by rewrite !decide_True by (by eapply first_key_doomed).
Qed.

Lemma set_at_capacity_evicts_first_witness :
  exists self',
    _SimpleCache.set (five_entries 3) 100 "f" (PyInt 6) None = Ok self' /\
    _SimpleCache.has_key self' "a" = false /\
    _SimpleCache._expire_info self' !! "a" = None.
Proof.
  destruct (set_at_capacity_evicts_first (five_entries 3) 100 "f" (PyInt 6)
              None "a" (PyInt 1)
              [("b", PyInt 2); ("c", PyInt 3); ("d", PyInt 4); ("e", PyInt 5)])
    as (self' & outcome & _ & Hset & Hno & He);
    [reflexivity | simpl; lia | discriminate |].
  exists self'. split; [exact (Hset eq_refl)|]. split; [exact Hno|exact He].
Defined.

(** X6: with [cull_frequency] 1 or -1 every position is a multiple of the
    frequency, so the cull pass empties the value map, and with it the
    expiration map of a backend whose maps hold the same keys. *)
Theorem cull_frequency_one_flushes self :
  _SimpleCache._cull_frequency self = 1 \/
  _SimpleCache._cull_frequency self = -1 ->
  exists self',
    _SimpleCache._cull self = Ok self' /\
    _SimpleCache._cache self' = [] /\
    (same_keys self -> _SimpleCache._expire_info self' = ∅).
Proof.
  intros Hf. rewrite _cull_eq.
  assert ((_SimpleCache._cull_frequency self =? 0) = false) as ->
    by (apply Z.eqb_neq; lia).
  eexists. split; [reflexivity|].
  assert (forall k, k ∈ ODict.keys (_SimpleCache._cache self) ->
                    k ∈ _SimpleCache.doomed self) as Hall.
  { intros k [i Hi]%list_elem_of_lookup_1. apply elem_of_doomed.
    exists i. split; [done|].
    destruct Hf as [-> | ->]; [apply Z.mod_1_r|].
    pose proof (Z.mod_neg_bound (Z.of_nat i) (-1)). lia. }
  split.
  - unfold without. cbn [_SimpleCache._cache].
    apply elem_of_nil_inv. intros [k v] [Hk Hin]%list_elem_of_filter.
    apply Hk, Hall. simpl. apply list_elem_of_fmap. by exists (k, v).
  - intros Hkeys. apply map_eq. intros k.
    rewrite lookup_expire_without, lookup_empty. case_decide; [done|].
    apply eq_None_not_Some. intros Hk%elem_of_dom%Hkeys. auto.
Qed.

Lemma cull_frequency_one_flushes_witness :
  exists self',
    _SimpleCache._cull (five_entries (-1)) = Ok self' /\
    _SimpleCache._cache self' = [].
Proof.
  destruct (cull_frequency_one_flushes (five_entries (-1)))
    as (self' & Hcull & Hc & _); [by right|].
  by exists self'.
Defined.

(** ** Sequences of calls *)

(** The calls a client makes on the backend object. *)
Inductive call : Type :=
  | CallGet (now : Z) (key : string) (dflt : pyval)
  | CallSet (now : Z) (key : string) (value : pyval) (timeout : option Z)
  | CallDelete (key : string)
  | CallGetMany (clock : nat -> Z) (keys : list string)
  | CallHasKey (key : string).

(** The state a call leaves, or the exception it raises. *)
Definition perform (self : _SimpleCache.t) (c : call) : result _SimpleCache.t :=
  match c with
  | CallGet now key dflt =>
      r <- _SimpleCache.get self now key dflt ;; Ok r.2
  | CallSet now key value timeout =>
      _SimpleCache.set self now key value timeout
  | CallDelete key => _SimpleCache.delete self key
  | CallGetMany clock keys =>
      r <- _SimpleCache.get_many self clock keys ;; Ok r.2
  | CallHasKey key =>
      let _ := _SimpleCache.has_key self key in Ok self
  end.

Definition run (calls : list call) (self : _SimpleCache.t)
  : result _SimpleCache.t :=
  for_each perform calls self.

(** The settings of a backend. *)
Definition settings (self : _SimpleCache.t) : Z * Z * Z :=
  (_SimpleCache.default_timeout self, _SimpleCache._max_entries self,
   _SimpleCache._cull_frequency self).

Lemma get_shape self now key dflt :
  same_keys self ->
  exists r ks, _SimpleCache.get self now key dflt = Ok (r, without self ks).
Proof.
  intros H.
  destruct (_SimpleCache._expire_info self !! key) as [exp|] eqn:He.
  - destruct (Z.lt_ge_cases exp now) as [Hlt|Hge].
    + destruct (proj2 (same_keys_lookup self key H)) as [v Hc]; [by eauto|].
      exists dflt, [key]. by apply (get_expired _ _ _ _ v exp).
    + eexists _, []. rewrite without_nil. by apply (get_unexpired _ _ _ _ exp).
  - eexists _, []. rewrite without_nil. by apply get_untimed.
Qed.

Lemma get_many_shape clock keys :
  forall i d self,
    same_keys self ->
    exists d' ks,
      _Cache.get_many_loop _SimpleCache.get clock i keys d self
        = Ok (d', without self ks).
Proof.
  induction keys as [|key keys IH]; intros i d self H.
  - exists d, []. by rewrite without_nil.
  - simpl. destruct (get_shape self (clock i) key PyNone H) as (r & ks & ->).
    simpl.
    destruct (IH (S i) (if is_not_None r then <[key:=r]> d else d)
                (without self ks)) as (d' & ks' & ->);
      [by apply same_keys_without|].
    exists d', (ks ++ ks'). by rewrite without_without.
Qed.

(** The call [c] on the backend [self] is not a [set] with a timeout, its
    own or the default one, that is too large to be converted to a
    double. *)
Definition convertible (self : _SimpleCache.t) (c : call) : Prop :=
  match c with
  | CallSet _ _ _ timeout =>
      Py.float_overflows (effective_timeout self timeout) = false
  | _ => True
  end.

Lemma convertible_settings self self' c :
  settings self' = settings self -> convertible self c -> convertible self' c.
Proof.
  intros [= Hdt _ _]. destruct c as [| ? ? ? [t|] | | |]; simpl; try done.
  by rewrite Hdt.
Qed.

(** Every call but [set] leaves the backend with some keys taken out; a
    [set] that returns leaves what its cull test left, with the entry
    written. *)
Lemma perform_shape self c :
  same_keys self ->
  convertible self c ->
  (exists ks, perform self c = Ok (without self ks)) \/
  (exists now key value timeout exp,
     c = CallSet now key value timeout /\
     perform self c = Ok (stored (culled self) key value exp)).
Proof.
  intros H Hfits.
  destruct c as [now key dflt|now key value timeout|key|clock keys|key];
    simpl.
  - left. destruct (get_shape self now key dflt H) as (r & ks & ->). by exists ks.
  - right. exists now, key, value, timeout. eexists. split; [done|].
    by apply set_eq.
  - left. exists [key]. apply delete_eq.
  - left. unfold _SimpleCache.get_many, _Cache.get_many.
    destruct (get_many_shape clock keys 0%nat ∅ self H) as (d & ks & ->).
    by exists ks.
  - left. exists []. by rewrite without_nil.
Qed.

Lemma perform_same_keys self c :
  same_keys self ->
  convertible self c ->
  exists self',
    perform self c = Ok self' /\ same_keys self' /\
    settings self' = settings self.
Proof.
  intros H Hfits.
  destruct (perform_shape self c H Hfits)
    as [[ks ->]|(now & key & value & timeout & exp & _ & ->)].
  - eexists. split; [done|]. split; [by apply same_keys_without|done].
  - eexists. split; [done|].
    split; [by apply same_keys_stored, same_keys_culled|].
    unfold settings, stored, culled. simpl. by repeat case_match.
Qed.

(** A property of backends that every call keeps holds after every
    sequence of calls in which every [set] has a timeout that can be
    converted to a double; none of the calls raises. *)
Lemma run_invariant (P : _SimpleCache.t -> Prop) calls :
  (forall self c,
     c ∈ calls -> same_keys self -> convertible self c -> P self ->
     forall self', perform self c = Ok self' -> P self') ->
  forall self,
    (forall c, c ∈ calls -> convertible self c) ->
    same_keys self -> P self ->
    exists self',
      run calls self = Ok self' /\ same_keys self' /\ P self' /\
      settings self' = settings self.
Proof.
  unfold run. induction calls as [|c calls IH]; intros Hstep self Hfits Hkeys HP.
  - exists self. split; [done|]. split; [done|]. by split.
  - simpl.
    destruct (perform_same_keys self c Hkeys) as (self1 & Hc & H1 & Hs).
    { apply Hfits, list_elem_of_here. }
    rewrite Hc. simpl.
    destruct (IH (fun s c' Hin => Hstep s c' (list_elem_of_further _ _ _ Hin))
                self1) as (self' & -> & H' & HP' & Hs').
    { intros c' Hin. apply (convertible_settings self); [done|].
      by apply Hfits, list_elem_of_further. }
    { done. }
    { apply (Hstep self c); [apply list_elem_of_here|done| |done..].
      apply Hfits, list_elem_of_here. }
    exists self'. split; [done|]. split; [done|]. split; [done|]. congruence.
Qed.

(** X7: the capacity bound.  On a backend with [max_entries] at least 1
    whose maps hold the same keys and which holds at most [max_entries]
    entries (a newly constructed one, for instance), no sequence of
    [get], [set], [delete], [get_many] and [has_key] calls in which every
    [set] has a timeout, its own or the default one, that can be
    converted to a double raises, the entry count never exceeds
    [max_entries], and the settings stay as they were. *)
Theorem capacity_invariant self calls :
  same_keys self ->
  1 <= _SimpleCache._max_entries self ->
  Z.of_nat (length (_SimpleCache._cache self)) <= _SimpleCache._max_entries self ->
  (forall c, c ∈ calls -> convertible self c) ->
  exists self',
    run calls self = Ok self' /\
    Z.of_nat (length (_SimpleCache._cache self'))
      <= _SimpleCache._max_entries self /\
    settings self' = settings self.
Proof.
  intros Hkeys Hpos Hlen Hfits.
  destruct (run_invariant
              (fun s => 1 <= _SimpleCache._max_entries s /\
                        Z.of_nat (length (_SimpleCache._cache s))
                          <= _SimpleCache._max_entries s)
              calls) with (self := self)
    as (self' & Hrun & _ & [_ Hlen'] & Hs); [|done|done|done|].
  - intros s c _ Hk Hfit [Hp Hl] s' Hc.
    destruct (perform_shape s c Hk Hfit)
      as [[ks Hks]|(now & key & value & timeout & exp & _ & Hset)].
    + rewrite Hks in Hc. injection Hc as <-.
      pose proof (length_without s ks).
      change (_SimpleCache._max_entries (without s ks))
        with (_SimpleCache._max_entries s). lia.
    + rewrite Hset in Hc. injection Hc as <-. clear Hset.
      assert (_SimpleCache._max_entries (culled s)
              = _SimpleCache._max_entries s) as Hmax
        by (unfold culled; by repeat case_match).
      unfold stored. cbn [_SimpleCache._max_entries _SimpleCache._cache].
      rewrite Hmax. split; [done|].
      pose proof (length_setitem (_SimpleCache._cache (culled s)) key value).
      pose proof (culled_has_room s Hp Hl). lia.
  - exists self'. split; [done|]. split; [|done].
    injection Hs as _ Hmax _. by rewrite <- Hmax.
Qed.

Lemma capacity_invariant_witness :
  exists self',
    run [CallSet 100 "a" (PyInt 1) None; CallSet 101 "b" (PyInt 2) (Some 0);
         CallGet 102 "b" PyNone; CallSet 103 "c" (PyInt 3) None;
         CallGetMany (fun _ => 104) ["a"; "c"]; CallDelete "a"]
        (_SimpleCache.Build 300 [] ∅ 2 3) = Ok self' /\
    Z.of_nat (length (_SimpleCache._cache self')) <= 2.
Proof.
  destruct (capacity_invariant (_SimpleCache.Build 300 [] ∅ 2 3)
              [CallSet 100 "a" (PyInt 1) None; CallSet 101 "b" (PyInt 2) (Some 0);
               CallGet 102 "b" PyNone; CallSet 103 "c" (PyInt 3) None;
               CallGetMany (fun _ => 104) ["a"; "c"]; CallDelete "a"])
    as (self' & Hrun & Hlen & _).
  - apply (same_keys_flushed (_SimpleCache.Build 300 [] ∅ 2 3)).
  - simpl. lia.
  - simpl. lia.
  - intros c Hin.
    repeat (apply elem_of_cons in Hin as [->|Hin]; [by simpl|]).
    by apply elem_of_nil in Hin.
  - exists self'. split; [exact Hrun|exact Hlen].
Defined.

(** The call [c] writes [key]. *)
Definition sets_key (key : string) (c : call) : Prop :=
  match c with
  | CallSet _ k _ _ => k = key
  | _ => False
  end.

(** X8: a key that is not set reads as the default.  On a backend whose
    maps hold the same keys and do not hold [key] (a newly constructed
    one, or one where [key] was just deleted), after any sequence of
    calls none of which is a [set] of [key], and in which every [set] has
    a timeout that can be converted to a double, [has_key(key)] is
    [False] and [get(key, default)] returns the default and changes
    nothing. *)
Theorem unset_key_reads_default self calls key :
  same_keys self ->
  _SimpleCache.has_key self key = false ->
  (forall c, c ∈ calls -> ~ sets_key key c) ->
  (forall c, c ∈ calls -> convertible self c) ->
  exists self',
    run calls self = Ok self' /\
    _SimpleCache.has_key self' key = false /\
    forall now dflt, _SimpleCache.get self' now key dflt = Ok (dflt, self').
Proof.
  intros Hkeys Hno Hcalls Hfits.
  destruct (run_invariant
              (fun s => _SimpleCache.has_key s key = false) calls)
    with (self := self) as (self' & Hrun & Hkeys' & Hno' & _);
    [|done|done|done|].
  - unfold _SimpleCache.has_key, ODict.has_key.
    intros s c Hin Hk Hfit Habs s' Hc.
    destruct (perform_shape s c Hk Hfit)
      as [[ks Hks]|(now & k & value & timeout & exp & -> & Hset)].
    + rewrite Hks in Hc. injection Hc as <-. rewrite lookup_cache_without.
      by case_decide.
    + rewrite Hset in Hc. injection Hc as <-. unfold stored. simpl.
      rewrite lookup_setitem_ne by (intros ->; by apply (Hcalls _ Hin)).
      unfold culled.
      destruct (Z.of_nat _ >=? _); [|done].
      destruct (_SimpleCache._cull_frequency s =? 0); [done|].
      rewrite lookup_cache_without. by case_decide.
  - exists self'. split; [done|]. split; [done|].
    intros now dflt. by apply denied_key_reads_default.
Qed.

Lemma unset_key_reads_default_witness :
  exists self',
    run [CallSet 100 "a" (PyInt 1) None; CallDelete "z";
         CallGet 101 "z" PyNone; CallSet 102 "b" (PyInt 2) None] fresh
      = Ok self' /\
    _SimpleCache.has_key self' "z" = false /\
    _SimpleCache.get self' 103 "z" (PyInt 0) = Ok (PyInt 0, self').
Proof.
  destruct (unset_key_reads_default fresh
              [CallSet 100 "a" (PyInt 1) None; CallDelete "z";
               CallGet 101 "z" PyNone; CallSet 102 "b" (PyInt 2) None] "z")
    as (self' & Hrun & Hno & Hget).
  - apply (same_keys_flushed fresh).
  - reflexivity.
  - intros c Hin.
    repeat (apply elem_of_cons in Hin as [->|Hin]; [simpl; discriminate || tauto|]).
    by apply elem_of_nil in Hin.
  - intros c Hin.
    repeat (apply elem_of_cons in Hin as [->|Hin]; [by simpl|]).
    by apply elem_of_nil in Hin.
  - exists self'. split; [exact Hrun|]. split; [exact Hno|apply Hget].
Defined.

(** ** What [get_many] does to the backend *)

(** The entry of [key] is stored with an expiration time before [now]. *)
Definition expired (self : _SimpleCache.t) (now : Z) (key : string) : bool :=
  match _SimpleCache._expire_info self !! key with
  | Some exp => exp <? now
  | None => false
  end.

Lemma get_state self now key dflt :
  same_keys self ->
  exists r,
    _SimpleCache.get self now key dflt =
    Ok (r, if expired self now key then without self [key] else self).
Proof.
  intros H. unfold expired.
  destruct (_SimpleCache._expire_info self !! key) as [exp|] eqn:He.
  - destruct (exp <? now) eqn:Hlt.
    + apply Z.ltb_lt in Hlt.
      destruct (proj2 (same_keys_lookup self key H)) as [v Hc]; [by eauto|].
      exists dflt. by apply (get_expired _ _ _ _ v exp).
    + apply Z.ltb_ge in Hlt. eexists. by apply (get_unexpired _ _ _ _ exp).
  - eexists. by apply get_untimed.
Qed.

Lemma expired_without self now ks k :
  expired (without self ks) now k =
  if decide (k ∈ ks) then false else expired self now k.
Proof. unfold expired. rewrite lookup_expire_without. by case_decide. Qed.

Lemma get_many_loop_state now clock keys :
  (forall i, clock i = now) ->
  forall i d self,
    same_keys self ->
    exists d' self',
      _Cache.get_many_loop _SimpleCache.get clock i keys d self
        = Ok (d', self') /\
      forall k,
        ODict.lookup (_SimpleCache._cache self') k =
          (if decide (k ∈ keys /\ expired self now k = true) then None
           else ODict.lookup (_SimpleCache._cache self) k) /\
        _SimpleCache._expire_info self' !! k =
          (if decide (k ∈ keys /\ expired self now k = true) then None
           else _SimpleCache._expire_info self !! k).
Proof.
  intros Hclock. induction keys as [|key keys IH]; intros i d self H.
  - exists d, self. split; [done|]. intros k.
    rewrite !decide_False; [done|..]; by intros [?%elem_of_nil _].
  - simpl. rewrite Hclock.
    destruct (get_state self now key PyNone H) as (r & ->). simpl.
    destruct (expired self now key) eqn:Hexp.
    + destruct (IH (S i) (if is_not_None r then <[key:=r]> d else d)
                  (without self [key])) as (d' & self' & -> & Hlook);
        [by apply same_keys_without|].
      exists d', self'. split; [done|]. intros k.
      destruct (Hlook k) as [-> ->]. clear Hlook.
      rewrite expired_without, lookup_cache_without, lookup_expire_without.
      destruct (decide (k = key)) as [->|Hne].
      * rewrite !(decide_True (P := key ∈ [key]))
          by (by apply list_elem_of_singleton).
        rewrite !(decide_True (P := key ∈ key :: keys /\ _))
          by (split; [by left|done]).
        by split; case_decide.
      * rewrite !(decide_False (P := k ∈ [key]))
          by (by rewrite list_elem_of_singleton).
        split; apply decide_ext; rewrite elem_of_cons; split;
          try (intros [? ?]; split; [by right|done]);
          (intros [[->|?] Hk]; done).
    + destruct (IH (S i) (if is_not_None r then <[key:=r]> d else d) self H)
        as (d' & self' & -> & Hlook).
      exists d', self'. split; [done|]. intros k.
      destruct (Hlook k) as [-> ->]. clear Hlook.
      split; apply decide_ext; rewrite elem_of_cons; split;
        try (intros [? ?]; split; [by right|done]);
        (intros [[->|?] Hk]; [congruence|done]).
Qed.

(** X9: [get_many] is a lazy expiry of the keys it is asked for.  On a
    backend whose maps hold the same keys, with every read made at the
    time [now], it takes out of both maps exactly the requested keys
    whose expiration time is before [now], and leaves every other entry,
    the expired ones that were not requested included, as it was. *)
Theorem get_many_purges_requested self now clock keys :
  same_keys self ->
  (forall i, clock i = now) ->
  exists d self',
    _SimpleCache.get_many self clock keys = Ok (d, self') /\
    forall k,
      (k ∈ keys -> expired self now k = true ->
       _SimpleCache.has_key self' k = false /\
       _SimpleCache._expire_info self' !! k = None) /\
      (~ (k ∈ keys /\ expired self now k = true) ->
       ODict.lookup (_SimpleCache._cache self') k
         = ODict.lookup (_SimpleCache._cache self) k /\
       _SimpleCache._expire_info self' !! k
         = _SimpleCache._expire_info self !! k).
Proof.
  intros H Hclock.
  destruct (get_many_loop_state now clock keys Hclock 0%nat ∅ self H)
    as (d & self' & Hloop & Hlook).
  exists d, self'. split; [exact Hloop|]. intros k.
  unfold _SimpleCache.has_key, ODict.has_key.
  destruct (Hlook k) as [-> ->]. split.
  - intros Hin Hexp. by rewrite !decide_True by done.
  - intros Hnot. by rewrite !decide_False by done.
Qed.

Lemma get_many_purges_requested_witness :
  exists d self',
    _SimpleCache.get_many
      (stored (stored fresh "a" (PyInt 1) 50) "c" (PyInt 3) 60)
      (fun _ => 100) ["a"; "b"] = Ok (d, self') /\
    _SimpleCache.has_key self' "a" = false /\
    ODict.lookup (_SimpleCache._cache self') "c" = Some (PyInt 3).
Proof.
  destruct (get_many_purges_requested
              (stored (stored fresh "a" (PyInt 1) 50) "c" (PyInt 3) 60)
              100 (fun _ => 100) ["a"; "b"])
    as (d & self' & Hget & Hstate).
  - apply same_keys_stored, same_keys_stored, (same_keys_flushed fresh).
  - reflexivity.
  - exists d, self'. split; [exact Hget|]. split.
    + apply (proj1 (Hstate "a")); [by left|reflexivity].
    + destruct (proj2 (Hstate "c")) as [Hc _].
      * intros [Hin _].
        repeat (apply elem_of_cons in Hin as [Hin|Hin]; [discriminate Hin|]).
        by apply elem_of_nil in Hin.
      * rewrite Hc. reflexivity.
Defined.

(** ** The inherited [get_many], for any backend *)

Section AnyBackend.
Context {S : Type}.
Variable get : S -> Z -> string -> pyval -> result (pyval * S).

Lemma get_many_loop_domain clock keys :
  forall i d self d' self',
    _Cache.get_many_loop get clock i keys d self = Ok (d', self') ->
    forall k v,
      d' !! k = Some v -> (k ∈ keys /\ v ≠ PyNone) \/ d !! k = Some v.
Proof.
  induction keys as [|key keys IH]; intros i d self d' self' Hloop k v Hk.
  - injection Hloop as <- _. by right.
  - simpl in Hloop.
    destruct (get self (clock i) key PyNone) as [[r self1]|e]; [|done].
    simpl in Hloop.
    destruct (IH _ _ _ _ _ Hloop k v Hk) as [[Hin Hv]|Hd].
    + left. split; [by right|done].
    + destruct r; simpl in Hd; [by right|..];
        (destruct (decide (key = k)) as [->|Hne];
         [rewrite lookup_insert_eq in Hd; injection Hd as <-;
          left; split; [by left|done]
         |rewrite lookup_insert_ne in Hd by done; by right]).
Qed.

Lemma get_many_loop_total clock keys :
  (forall self now key dflt,
     exists r self', get self now key dflt = Ok (r, self')) ->
  forall i d self,
    exists d' self', _Cache.get_many_loop get clock i keys d self = Ok (d', self').
Proof.
  intros Hget. induction keys as [|key keys IH]; intros i d self.
  - by exists d, self.
  - simpl. destruct (Hget self (clock i) key PyNone) as (r & self1 & ->).
    simpl. apply IH.
Qed.

(** X10: whatever backend inherits it, [get_many] returns only requested
    keys and never maps a key to [None], and it returns whenever the
    backend's [get] always returns. *)
Theorem get_many_of_any_backend self clock keys :
  (forall d self',
     _Cache.get_many get self clock keys = Ok (d, self') ->
     forall k v, d !! k = Some v -> k ∈ keys /\ v ≠ PyNone) /\
  ((forall self now key dflt,
      exists r self', get self now key dflt = Ok (r, self')) ->
   exists d self', _Cache.get_many get self clock keys = Ok (d, self')).
Proof.
  unfold _Cache.get_many. split.
  - intros d self' Hloop k v Hk.
    destruct (get_many_loop_domain _ _ _ _ _ _ _ Hloop k v Hk) as [?|Hd];
      [done|].
    by rewrite lookup_empty in Hd.
  - intros Hget. by apply get_many_loop_total.
Qed.
End AnyBackend.

Lemma get_many_of_any_backend_witness :
  exists d self',
    _Cache.get_many _SimpleCache.get two_entries (fun _ => 100) ["a"; "z"]
      = Ok (d, self') /\
    forall k v, d !! k = Some v -> k ∈ ["a"; "z"] /\ v ≠ PyNone.
Proof.
  eexists _, _. split; [reflexivity|].
  exact (proj1 (get_many_of_any_backend _SimpleCache.get two_entries
                  (fun _ => 100) ["a"; "z"]) _ _ eq_refl).
Defined.

(** * Further properties of [get_cache] *)

Lemma find_at s a b c :
  ~ occurs c a -> s = a +:+ String c b ->
  Py.find s c = Z.of_nat (String.length a).
Proof.
  intros Ha ->. induction a as [|x a IH]; simpl.
  - by rewrite Ascii.eqb_refl.
  - rewrite occurs_cons in Ha.
    destruct (Ascii.eqb_spec x c) as [->|Hne]; [tauto|].
    rewrite IH by tauto.
    destruct (Z.eqb_spec (Z.of_nat (String.length a)) (-1)); lia.
Qed.

Lemma slice_from_app a b : Py.slice_from (a +:+ b) (String.length a) = b.
Proof. induction a as [|x a IH]; simpl; [by destruct b|done]. Qed.

Lemma slice_to_app a b : Py.slice_to (a +:+ b) (String.length a) = a.
Proof. induction a as [|x a IH]; simpl; [done|by rewrite IH]. Qed.

Lemma endswith_iff s c :
  Py.endswith s c = true <-> exists l, s = l +:+ String c "".
Proof.
  induction s as [|x s IH]; simpl.
  - split; [done|]. intros [[|y l] H]; discriminate H.
  - destruct s as [|y s].
    + rewrite Ascii.eqb_eq. split.
      * intros ->. by exists "".
      * intros [[|z [|w l]] H]; simpl in H; by injection H.
    + rewrite IH. split.
      * intros [l ->]. by exists (String x l).
      * intros [[|z l] H]; simpl in H; [discriminate H|].
        injection H as -> H. by exists l.
Qed.

Lemma drop_last_app l c : Py.drop_last (l +:+ String c "") = l.
Proof.
  induction l as [|x l IH]; [done|]. simpl.
  destruct (l +:+ String c "") eqn:Hl; [by destruct l|]. by rewrite IH.
Qed.

Lemma no_question_mark_in_slashes loc :
  ~ occurs "?" loc -> ~ occurs "?" ("//" +:+ loc).
Proof.
  intros Hloc. change ("//" +:+ loc) with (String "/" (String "/" loc)).
  rewrite !occurs_cons. by intros [[=]|[[=]|?]].
Qed.

Lemma append_cons x a b : String x a +:+ b = String x (a +:+ b).
Proof. reflexivity. Qed.

Lemma length_append a b :
  String.length (a +:+ b) = (String.length a + String.length b)%nat.
Proof.
  induction a as [|x a IH]; [done|]. rewrite append_cons. simpl. by rewrite IH.
Qed.

Lemma append_assoc a b c : (a +:+ b) +:+ c = a +:+ b +:+ c.
Proof.
  induction a as [|x a IH]; [done|]. by rewrite !append_cons, IH.
Qed.

(** The location [get_cache] hands to the backend class when the
    descriptor has no query string: the text after "://" without one
    trailing slash. *)
Lemma get_cache_in_no_query {B}
    (BACKENDS : gmap string (option (constructor B))) (class : constructor B)
    scheme loc :
  BACKENDS !! scheme = Some (Some class) ->
  ~ occurs ":" scheme ->
  ~ occurs "?" loc ->
  get_cache_in BACKENDS (scheme +:+ "://" +:+ loc)
    = class (if Py.endswith loc "/" then Py.drop_last loc else loc) ∅.
Proof.
  intros Hclass Hscheme Hloc.
  rewrite (get_cache_in_split _ _ scheme ("//" +:+ loc)) by (by split).
  assert (Py.find ("//" +:+ loc) "?" = -1) as Hfind
    by (by apply find_absent, no_question_mark_in_slashes).
  rewrite Hfind. unfold constructor in *.
  revert Hclass. generalize (BACKENDS !! scheme). by intros o ->.
Qed.

Lemma slice_from_after a c b :
  Py.slice_from (a +:+ String c b) (S (String.length a)) = b.
Proof.
  induction a as [|x a IH]; [done|]. rewrite append_cons. simpl. exact IH.
Qed.

(** With a query string the parameters are those of the query, and the
    location is cut from the start of the text after the colon. *)
Lemma get_cache_in_query {B}
    (BACKENDS : gmap string (option (constructor B))) (class : constructor B)
    scheme loc query :
  BACKENDS !! scheme = Some (Some class) ->
  ~ occurs ":" scheme ->
  ~ occurs "?" loc ->
  get_cache_in BACKENDS (scheme +:+ "://" +:+ loc +:+ "?" +:+ query)
    = class (if Py.endswith ("//" +:+ loc) "/"
             then Py.drop_last ("//" +:+ loc) else "//" +:+ loc)
            (dict_of_pairs (cgi.parse_qsl query)).
Proof.
  intros Hclass Hscheme Hloc.
  pose proof (no_question_mark_in_slashes loc Hloc) as Hno.
  set (pre := "//" +:+ loc) in *.
  assert (splits_at_first ":" (scheme +:+ "://" +:+ loc +:+ "?" +:+ query)
            scheme (pre +:+ String "?" query)) as Hsplit.
  { split; [|done]. unfold pre. by rewrite append_assoc. }
  rewrite (get_cache_in_split _ _ _ _ Hsplit). cbv zeta.
  assert (Py.startswith (pre +:+ String "?" query) "//" = true) as ->.
  { apply startswith_slashes. unfold pre. rewrite append_assoc. by eexists. }
  rewrite (find_at _ pre query "?" Hno eq_refl).
  assert ((Z.of_nat (String.length pre) =? -1) = false) as ->
    by (apply Z.eqb_neq; lia).
  replace (Z.to_nat (Z.of_nat (String.length pre) + 1))
    with (S (String.length pre)) by lia.
  rewrite Nat2Z.id, slice_from_after.
  replace (Py.slice_to (pre +:+ String "?" query) (String.length pre))
    with pre by (by rewrite slice_to_app).
  unfold constructor in *.
  revert Hclass. generalize (BACKENDS !! scheme). by intros o ->.
Qed.

Lemma no_colon_in_simple : ~ occurs ":" "simple".
Proof. by apply find_absent. Qed.

Lemma no_colon_in_memcached : ~ occurs ":" "memcached".
Proof. by apply find_absent. Qed.

(** X11: a "simple" descriptor without a query string yields the backend
    with the default settings and empty maps, whatever its location part
    is and whether or not the memcache module could be imported. *)
Theorem simple_descriptor_defaults {Client}
    (memcache : option (list string -> Client)) loc :
  ~ occurs "?" loc ->
  get_cache memcache ("simple://" +:+ loc) = Ok (SimpleCache fresh).
Proof.
  intros Hloc. unfold get_cache.
  change ("simple://" +:+ loc) with ("simple" +:+ "://" +:+ loc).
  by rewrite (get_cache_in_no_query (_BACKENDS memcache)
                (fun host params =>
                   c <- _SimpleCache.__init__ host params ;; Ok (SimpleCache c))
                "simple" loc eq_refl no_colon_in_simple Hloc).
Qed.

Lemma simple_descriptor_defaults_witness :
  get_cache (Client := unit) None "simple://anything/at/all/"
    = Ok (SimpleCache fresh).
Proof.
  apply (simple_descriptor_defaults (Client := unit) None "anything/at/all/").
  by apply find_absent.
Defined.

(** X12: a "simple" descriptor with a query string yields a backend with
    empty maps whose settings are read off the query: [timeout],
    [max_entries] and [cull_frequency] each take the integer of the query
    parameter of that name when [int()] accepts it, and the default (300,
    300, 3) otherwise. *)
Theorem simple_descriptor_settings {Client}
    (memcache : option (list string -> Client)) loc query :
  ~ occurs "?" loc ->
  exists c,
    get_cache memcache ("simple://" +:+ loc +:+ "?" +:+ query)
      = Ok (SimpleCache c) /\
    coerced (dict_of_pairs (cgi.parse_qsl query)) "timeout" 300
      (_SimpleCache.default_timeout c) /\
    coerced (dict_of_pairs (cgi.parse_qsl query)) "max_entries" 300
      (_SimpleCache._max_entries c) /\
    coerced (dict_of_pairs (cgi.parse_qsl query)) "cull_frequency" 3
      (_SimpleCache._cull_frequency c) /\
    _SimpleCache._cache c = [] /\
    _SimpleCache._expire_info c = ∅.
Proof.
  intros Hloc. unfold get_cache.
  change ("simple://" +:+ loc +:+ "?" +:+ query)
    with ("simple" +:+ "://" +:+ loc +:+ "?" +:+ query).
  rewrite (get_cache_in_query (_BACKENDS memcache)
             (fun host params =>
                c <- _SimpleCache.__init__ host params ;; Ok (SimpleCache c))
             "simple" loc query eq_refl no_colon_in_simple Hloc).
  rewrite __init___eq. simpl. eexists. split; [reflexivity|]. simpl.
  auto using setting_coerced.
Qed.

Lemma simple_descriptor_settings_witness :
  exists c,
    get_cache (Client := unit) None
      "simple:///?timeout=60&max_entries=x&cull_frequency=0"
      = Ok (SimpleCache c) /\
    _SimpleCache.default_timeout c = 60 /\
    _SimpleCache._max_entries c = 300 /\
    _SimpleCache._cull_frequency c = 0.
Proof.
  destruct (simple_descriptor_settings (Client := unit) None "/"
              "timeout=60&max_entries=x&cull_frequency=0")
    as (c & Hc & (Ht & _) & (_ & Hm & _) & (Hf & _) & _).
  - by apply find_absent.
  - exists c. split; [exact Hc|]. split; [|split].
    + apply (Ht (PyStr "60") 60); reflexivity.
    + apply (Hm (PyStr "x") ValueError); reflexivity.
    + apply (Hf (PyStr "0") 0); reflexivity.
Defined.

(** X13: a "memcached" descriptor without a query string, when the
    memcache module is there, yields the memcached backend with the
    default timeout 300 around a client built for exactly one server:
    the text after "://", colons included, without one trailing slash. *)
Theorem memcached_descriptor_server {Client}
    (memcache_Client : list string -> Client) loc :
  ~ occurs "?" loc ->
  (forall server,
     loc = server +:+ "/" ->
     get_cache (Some memcache_Client) ("memcached://" +:+ loc)
       = Ok (MemcachedCache
               (_MemcachedCache.Build 300 (memcache_Client [server])))) /\
  ((forall server, loc ≠ server +:+ "/") ->
   get_cache (Some memcache_Client) ("memcached://" +:+ loc)
     = Ok (MemcachedCache (_MemcachedCache.Build 300 (memcache_Client [loc])))).
Proof.
  intros Hloc. unfold get_cache.
  change ("memcached://" +:+ loc) with ("memcached" +:+ "://" +:+ loc).
  rewrite (get_cache_in_no_query (_BACKENDS (Some memcache_Client))
             (fun server params =>
                c <- _MemcachedCache.__init__ memcache_Client server params ;;
                Ok (MemcachedCache c))
             "memcached" loc eq_refl no_colon_in_memcached Hloc).
  unfold _MemcachedCache.__init__. rewrite _Cache__init___eq. simpl. split.
  - intros server ->.
    assert (Py.endswith (server +:+ "/") "/" = true) as ->
      by (apply endswith_iff; by exists server).
    by rewrite drop_last_app.
  - intros Hnot. destruct (Py.endswith loc "/") eqn:Hend; [|done].
    apply endswith_iff in Hend as [l ->]. by destruct (Hnot l).
Qed.

Lemma memcached_descriptor_server_witness :
  get_cache (Some (fun servers : list string => servers))
    "memcached://127.0.0.1:11211/"
    = Ok (MemcachedCache (_MemcachedCache.Build 300 ["127.0.0.1:11211"])).
Proof.
  apply (proj1 (memcached_descriptor_server
                  (fun servers : list string => servers) "127.0.0.1:11211/"
                  ltac:(by apply find_absent)) "127.0.0.1:11211").
  reflexivity.
Defined.

(** X14: the exceptions of [get_cache].  It raises
    [InvalidCacheBackendError] with the message "Backend URI must start
    with scheme://" when the descriptor has no colon or the text after
    its first colon does not begin with "//"; with the message naming the
    scheme, the text before the first colon, when that is not registered;
    and a [TypeError] for a memcached descriptor when the memcache module
    is missing.  It raises nothing else: no [KeyError], no [ValueError]. *)
Theorem get_cache_exceptions {Client}
    (memcache : option (list string -> Client)) uri e :
  get_cache memcache uri = Raise e ->
  (e = InvalidCacheBackendError MustStartWithScheme /\
   (~ occurs ":" uri \/
    exists scheme rest,
      splits_at_first ":" uri scheme rest /\ ~ begins_with "//" rest)) \/
  (exists scheme rest,
     e = InvalidCacheBackendError (NotAValidBackend scheme) /\
     splits_at_first ":" uri scheme rest /\ ~ registered scheme) \/
  (e = TypeError /\ memcache = None /\
   exists rest, splits_at_first ":" uri "memcached" rest).
Proof.
  intros He.
  destruct (get_cache_cases memcache uri)
    as [[Hno Hr]|(scheme & rest & Hs &
          [[Hb Hr]|[(Hb & Hreg & Hr)|[(Hb & -> & c & Hr)|(Hb & -> & Hm)]]])];
    try (rewrite Hr in He; injection He as <-).
  - left. split; [done|]. by left.
  - left. split; [done|]. right. by exists scheme, rest.
  - right. left. by exists scheme, rest.
  - rewrite Hr in He. discriminate He.
  - destruct memcache as [memcache_Client|].
    + destruct Hm as [c Hr]. rewrite Hr in He. discriminate He.
    + rewrite Hm in He. injection He as <-.
      right. right. split; [done|]. split; [done|]. by exists rest.
Qed.

Lemma get_cache_exceptions_witness :
  exists scheme rest,
    InvalidCacheBackendError (NotAValidBackend "file")
      = InvalidCacheBackendError (NotAValidBackend scheme) /\
    splits_at_first ":" "file:///var/tmp/django.cache/" scheme rest /\
    ~ registered scheme.
Proof.
  destruct (get_cache_exceptions (Client := unit) None
              "file:///var/tmp/django.cache/"
              (InvalidCacheBackendError (NotAValidBackend "file")) eq_refl)
    as [[[=] _]|[H|[[=] _]]].
  exact H.
Defined.

(** * Entries are reclaimed only by access *)

(** The call [c] may act on the entry of [key]: it reads or deletes that
    key, or it is a [set], which may cull any entry. *)
Definition touches (key : string) (c : call) : Prop :=
  match c with
  | CallGet _ k _ => k = key
  | CallSet _ _ _ _ => True
  | CallDelete k => k = key
  | CallGetMany _ keys => key ∈ keys
  | CallHasKey _ => False
  end.

Lemma without_other self ks key :
  key ∉ ks ->
  ODict.lookup (_SimpleCache._cache (without self ks)) key
    = ODict.lookup (_SimpleCache._cache self) key /\
  _SimpleCache._expire_info (without self ks) !! key
    = _SimpleCache._expire_info self !! key.
Proof.
  intros Hnot. rewrite lookup_cache_without, lookup_expire_without.
  by rewrite !decide_False.
Qed.

Lemma get_many_loop_frame clock keys key :
  key ∉ keys ->
  forall i d self d' self',
    same_keys self ->
    _Cache.get_many_loop _SimpleCache.get clock i keys d self = Ok (d', self') ->
    ODict.lookup (_SimpleCache._cache self') key
      = ODict.lookup (_SimpleCache._cache self) key /\
    _SimpleCache._expire_info self' !! key
      = _SimpleCache._expire_info self !! key.
Proof.
  induction keys as [|k keys IH]; intros Hnot i d self d' self' H Hloop.
  - by injection Hloop as _ <-.
  - apply not_elem_of_cons in Hnot as [Hne Hnot]. simpl in Hloop.
    destruct (get_state self (clock i) k PyNone H) as (r & Hget).
    rewrite Hget in Hloop. simpl in Hloop.
    apply (IH Hnot) in Hloop as [-> ->].
    + destruct (expired self (clock i) k); [|done].
      apply without_other. by rewrite list_elem_of_singleton.
    + destruct (expired self (clock i) k); [by apply same_keys_without|done].
Qed.

Lemma perform_frame self c key self' :
  same_keys self ->
  ~ touches key c ->
  perform self c = Ok self' ->
  ODict.lookup (_SimpleCache._cache self') key
    = ODict.lookup (_SimpleCache._cache self) key /\
  _SimpleCache._expire_info self' !! key
    = _SimpleCache._expire_info self !! key.
Proof.
  intros H Hnot.
  destruct c as [now k dflt|now k value timeout|k|clock keys|k]; simpl in *.
  - destruct (get_state self now k dflt H) as (r & ->). simpl. intros [= <-].
    destruct (expired self now k); [|done].
    apply without_other. rewrite list_elem_of_singleton. congruence.
  - done.
  - rewrite delete_eq. intros [= <-].
    apply without_other. rewrite list_elem_of_singleton. congruence.
  - unfold _SimpleCache.get_many, _Cache.get_many.
    destruct (_Cache.get_many_loop _ clock 0%nat keys ∅ self)
      as [[d s1]|e] eqn:Hloop; [|done].
    simpl. intros [= <-]. by eapply get_many_loop_frame.
  - by intros [= <-].
Qed.

(** X15: there is no background sweep.  On a backend whose maps hold the
    same keys, an entry, expired or not, stays in both maps with its
    value and expiration time through any sequence of calls that are
    reads and deletes of other keys, [get_many] calls that do not list
    its key, and [has_key] calls; and none of these calls raises. *)
Theorem untouched_entry_stays self calls key v exp :
  same_keys self ->
  ODict.lookup (_SimpleCache._cache self) key = Some v ->
  _SimpleCache._expire_info self !! key = Some exp ->
  (forall c, c ∈ calls -> ~ touches key c) ->
  exists self',
    run calls self = Ok self' /\
    ODict.lookup (_SimpleCache._cache self') key = Some v /\
    _SimpleCache._expire_info self' !! key = Some exp /\
    _SimpleCache.has_key self' key = true.
Proof.
  intros Hkeys Hc He Hcalls.
  destruct (run_invariant
              (fun s => ODict.lookup (_SimpleCache._cache s) key = Some v /\
                        _SimpleCache._expire_info s !! key = Some exp)
              calls) with (self := self)
    as (self' & Hrun & _ & [Hc' He'] & _); [| |done|done|].
  2:{ intros c Hin. specialize (Hcalls c Hin). by destruct c. }
  - intros s c Hin Hk _ [Hcs Hes] s' Hperform.
    destruct (perform_frame s c key s' Hk (Hcalls c Hin) Hperform) as [-> ->].
    done.
  - exists self'. split; [done|]. split; [done|]. split; [done|].
    unfold _SimpleCache.has_key, ODict.has_key. by rewrite Hc'.
Qed.

Lemma untouched_entry_stays_witness :
  exists self',
    run [CallGet 500 "b" PyNone; CallDelete "b"; CallHasKey "a";
         CallGetMany (fun _ => 501) ["b"; "c"]] two_entries = Ok self' /\
    ODict.lookup (_SimpleCache._cache self') "a" = Some (PyInt 1) /\
    _SimpleCache._expire_info self' !! "a" = Some 400 /\
    _SimpleCache.has_key self' "a" = true.
Proof.
  apply (untouched_entry_stays two_entries
           [CallGet 500 "b" PyNone; CallDelete "b"; CallHasKey "a";
            CallGetMany (fun _ => 501) ["b"; "c"]] "a" (PyInt 1) 400).
  - apply (same_keys_stored (stored fresh "a" (PyInt 1) 400) "b" (PyInt 2) 400),
      same_keys_stored, (same_keys_flushed fresh).
  - reflexivity.
  - reflexivity.
  - intros c Hin.
    repeat (apply elem_of_cons in Hin as [->|Hin];
            [simpl; try discriminate; try tauto;
             rewrite ?elem_of_cons, ?elem_of_nil; intros [[=]|[[=]|[]]]|]).
    by apply elem_of_nil in Hin.
Defined.
